(** * Inverta: the solar sizing engine [calculateSolarSystem] of src/App.tsx

    The engine is one pure TypeScript function over JavaScript numbers.  It is
    embedded here as a Rocq function of the same shape, twice.

    Numbers.  In the first embedding a JavaScript [number] is modelled by the
    type [number] below: an exact rational, or one of the three special
    values [+Infinity], [-Infinity] and [NaN], with the IEEE 754 rules for
    the special values (division by zero, [Infinity - Infinity], comparisons
    with [NaN], ...).  Rounding of binary64 results, overflow, underflow and
    the sign of zero are not part of it: every finite result is the exact
    rational one.  The statements that need exact sums, products or
    quotients are therefore made for whole-number requests in the range
    where binary64 computes the same values ([wholeLoad], [wholeItem],
    [MAX_SAFE_INTEGER]).

    The second embedding, module [Binary64], is the same function over the
    binary64 numbers of the machine.  It is run on concrete requests, in
    particular on those outside that range, where the program and the exact
    model differ.

    The second half of the file covers the code around the engine: the
    appliance handlers of the calculator page, the catalog editor, the reads
    of the result page, lead creation, the router and the toaster. *)

From Stdlib Require Import QArith Qround ZArith List Bool Ascii String Lia Lqa
  Permutation Morphisms Setoid.
From Stdlib Require PrimFloat.
Import ListNotations.

Set Implicit Arguments.

(** ** JavaScript numbers *)

Inductive number : Type :=
| Fin (q : Q)
| PInf
| NInf
| NaN.

Declare Scope js_scope.
Delimit Scope js_scope with js.
Bind Scope js_scope with number.

Module Num.

(** Unary minus, used for the sign rules of [*] and [/]. *)
Definition neg (x : number) : number :=
  match x with
  | Fin q => Fin (- q)
  | PInf => NInf
  | NInf => PInf
  | NaN => NaN
  end.

(** [signed c x]: [x] if the other operand is positive, [-x] if it is
    negative, [NaN] if it is zero (the rule for [0 * Infinity]). *)
Definition signed (c : comparison) (x : number) : number :=
  match c with
  | Gt => x
  | Lt => neg x
  | Eq => NaN
  end.

(** [x + y] *)
Definition add (x y : number) : number :=
  match x, y with
  | NaN, _ | _, NaN => NaN
  | Fin a, Fin b => Fin (a + b)
  | PInf, NInf | NInf, PInf => NaN
  | PInf, _ | _, PInf => PInf
  | NInf, _ | _, NInf => NInf
  end.

(** [x * y] *)
Definition mul (x y : number) : number :=
  match x, y with
  | NaN, _ | _, NaN => NaN
  | Fin a, Fin b => Fin (a * b)
  | Fin a, inf => signed (a ?= 0) inf
  | inf, Fin b => signed (b ?= 0) inf
  | PInf, PInf | NInf, NInf => PInf
  | PInf, NInf | NInf, PInf => NInf
  end.

(** [x / y].  A finite non-zero number over zero is an infinity, [0 / 0] is
    [NaN], a finite number over an infinity is zero. *)
Definition div (x y : number) : number :=
  match x, y with
  | NaN, _ | _, NaN => NaN
  | Fin a, Fin b =>
      if Qeq_bool b 0
      then match a ?= 0 with Gt => PInf | Lt => NInf | Eq => NaN end
      else Fin (a / b)
  | Fin _, _ => Fin 0
  | inf, Fin b => if Qle_bool 0 b then inf else neg inf
  | _, _ => NaN
  end.

(** [Math.ceil(x)] *)
Definition ceil (x : number) : number :=
  match x with
  | Fin q => Fin (inject_Z (Qceiling q))
  | other => other
  end.

(** [x >= y]; false as soon as one side is [NaN]. *)
Definition geb (x y : number) : bool :=
  match x, y with
  | NaN, _ | _, NaN => false
  | Fin a, Fin b => Qle_bool b a
  | PInf, _ | _, NInf => true
  | _, _ => false
  end.

(** ToBoolean on a number: [0] and [NaN] are falsy. *)
Definition truthy (x : number) : bool :=
  match x with
  | Fin q => negb (Qeq_bool q 0)
  | NaN => false
  | _ => true
  end.

(** Equality of numbers as values: rationals up to [Qeq]. *)
Definition eq (x y : number) : Prop :=
  match x, y with
  | Fin a, Fin b => a == b
  | PInf, PInf | NInf, NInf | NaN, NaN => True
  | _, _ => False
  end.

(** An integer value, as [Number.isInteger] tests it. *)
Definition isInteger (x : number) : Prop :=
  match x with
  | Fin q => exists z : Z, q == inject_Z z
  | _ => False
  end.

(** A finite value that is not negative. *)
Definition nonneg (x : number) : Prop :=
  match x with
  | Fin q => 0 <= q
  | _ => False
  end.

(** A finite value that is strictly positive. *)
Definition positive (x : number) : Prop :=
  match x with
  | Fin q => 0 < q
  | _ => False
  end.

(** [x <= y] on finite values; no special value is related to anything. *)
Definition le (x y : number) : Prop :=
  match x, y with
  | Fin a, Fin b => a <= b
  | _, _ => False
  end.

End Num.

Notation "x + y" := (Num.add x y) : js_scope.
Notation "x * y" := (Num.mul x y) : js_scope.
Notation "x / y" := (Num.div x y) : js_scope.
Notation "x >=? y" := (Num.geb x y) (at level 70, no associativity) : js_scope.
Notation "x =n= y" := (Num.eq x y) (at level 70, no associativity).

(** ** Values that may be [undefined] *)

(** [o?.f]: optional chaining, [undefined] when [o] is. *)
Definition optChain {A B : Type} (o : option A) (f : A -> B) : option B :=
  match o with
  | Some a => Some (f a)
  | None => None
  end.

(** [a || b] on object references: an object is truthy, [undefined] is not. *)
Definition orElse {A : Type} (a b : option A) : option A :=
  match a with
  | Some x => Some x
  | None => b
  end.

(** [v || d] where [v] is a number or [undefined] and [d] a number:
    [undefined], [0] and [NaN] are falsy and give [d]. *)
Definition orDefault (v : option number) (d : number) : number :=
  match v with
  | Some x => if Num.truthy x then x else d
  | None => d
  end.

(** ** Data types of the source *)

(** [CatalogItem.type]: ['panel' | 'inverter' | 'battery' | 'installation'] *)
Module ItemType.
Inductive t : Type := panel | inverter | battery | installation.

(** [a === b] on the four literals. *)
Definition eqb (a b : t) : bool :=
  match a, b with
  | panel, panel | inverter, inverter
  | battery, battery | installation, installation => true
  | _, _ => false
  end.
End ItemType.

Module CatalogItem.
Record t : Type := mk
  { id : string; name : string; type : ItemType.t;
    price : number; spec : number; unit : string }.
End CatalogItem.

(** [SelectedAppliance = Appliance & { count; hours }].  The [icon] of an
    [Appliance] is a React node used by the pages only and is left out. *)
Module SelectedAppliance.
Record t : Type := mk
  { id : string; name : string; watts : number; defaultHours : number;
    count : number; hours : number }.
End SelectedAppliance.

Definition DEFAULT_CATALOG : list CatalogItem.t :=
  [ CatalogItem.mk "1" "Jinko Solar Tiger Pro (550W)" ItemType.panel (Fin 85000) (Fin 550) "W";
    CatalogItem.mk "2" "Growatt Hybrid Inverter (5kVA)" ItemType.inverter (Fin 650000) (Fin 5000) "VA";
    CatalogItem.mk "3" "Felicity Lithium Battery (5kWh)" ItemType.battery (Fin 1200000) (Fin 5000) "Wh";
    CatalogItem.mk "4" "Mounting & Install Kit" ItemType.installation (Fin 150000) (Fin 1) "Lot" ].

(** The object returned by [calculateSolarSystem]. *)
Record System : Type :=
  { inverterCount : number; batteryCount : number; panelCount : number;
    inverter : option CatalogItem.t;
    battery : option CatalogItem.t;
    panel : option CatalogItem.t }.

Record Financials : Type :=
  { totalCost : number; totalAnnualSavings : number; roiYears : number }.

Record Impact : Type := { co2Saved : number }.

Record Details : Type := { dailyWh : number; designedPeakLoad : number }.

Record Result : Type :=
  { system : System; financials : Financials; impact : Impact; details : Details }.

(** ** The engine *)

Local Open Scope js_scope.

(** The body of [appliances.forEach], acting on [(dailyWh, peakWatts)]. *)
Definition forEachBody (acc : number * number) (app : SelectedAppliance.t)
  : number * number :=
  let '(dailyWh, peakWatts) := acc in
  (dailyWh + app.(SelectedAppliance.watts) * app.(SelectedAppliance.count)
             * app.(SelectedAppliance.hours),
   peakWatts + app.(SelectedAppliance.watts) * app.(SelectedAppliance.count)).

(** [i.type === k] *)
Definition isType (k : ItemType.t) (i : CatalogItem.t) : bool :=
  ItemType.eqb i.(CatalogItem.type) k.

Definition calculateSolarSystem (monthlyBill fuelCost : number)
    (appliances : list SelectedAppliance.t) (catalog : list CatalogItem.t)
  : Result :=
  let '(dailyWh, peakWatts) := fold_left forEachBody appliances (Fin 0, Fin 0) in

  let diversityFactor := Fin 0.7 in
  let designedPeakLoad := peakWatts * diversityFactor in

  let requiredInverterSize := designedPeakLoad * Fin 1.2 in
  let inverter :=
    orElse
      (find (fun i => isType ItemType.inverter i
                      && (i.(CatalogItem.spec) >=? requiredInverterSize)) catalog)
      (find (fun i => isType ItemType.inverter i) catalog) in
  let inverterCount :=
    Num.ceil (requiredInverterSize
              / orDefault (optChain inverter CatalogItem.spec) (Fin 5000)) in

  let requiredStorageWh := dailyWh * Fin 0.6 in
  let battery := find (fun i => isType ItemType.battery i) catalog in
  let batteryCount :=
    Num.ceil (requiredStorageWh
              / orDefault (optChain battery CatalogItem.spec) (Fin 4800)) in

  let requiredPanelPower := (dailyWh / Fin 4.5) * Fin 1.3 in
  let panel := find (fun i => isType ItemType.panel i) catalog in
  let panelCount :=
    Num.ceil (requiredPanelPower
              / orDefault (optChain panel CatalogItem.spec) (Fin 550)) in

  let equipmentCost :=
    (inverterCount * orDefault (optChain inverter CatalogItem.price) (Fin 0))
    + (batteryCount * orDefault (optChain battery CatalogItem.price) (Fin 0))
    + (panelCount * orDefault (optChain panel CatalogItem.price) (Fin 0)) in

  let installCost :=
    orDefault (optChain (find (fun i => isType ItemType.installation i) catalog)
                        CatalogItem.price) (Fin 150000) in
  let totalCost := equipmentCost + installCost in

  let annualGridCost := monthlyBill * Fin 12 in
  let annualFuelCost := fuelCost * Fin 12 in
  let totalAnnualSavings := annualGridCost + (annualFuelCost * Fin 0.9) in
  let co2Saved := dailyWh * Fin 0.4 * Fin 365 / Fin 1000 in

  {| system := {| inverterCount := inverterCount; batteryCount := batteryCount;
                  panelCount := panelCount; inverter := inverter;
                  battery := battery; panel := panel |};
     financials := {| totalCost := totalCost;
                      totalAnnualSavings := totalAnnualSavings;
                      roiYears := totalCost / totalAnnualSavings |};
     impact := {| co2Saved := co2Saved |};
     details := {| dailyWh := dailyWh; designedPeakLoad := designedPeakLoad |} |}.

(** ** The local constants of the engine, by name

    The statements below speak of the locals of [calculateSolarSystem]
    ([requiredInverterSize], the chosen items, the divisors, ...).  Each is
    given here as a function of the inputs, and [calculateSolarSystem_eq]
    shows that the engine computes exactly these. *)

Definition loadTotals (appliances : list SelectedAppliance.t) : number * number :=
  fold_left forEachBody appliances (Fin 0, Fin 0).

Definition dailyWhOf (appliances : list SelectedAppliance.t) : number :=
  fst (loadTotals appliances).

Definition peakWattsOf (appliances : list SelectedAppliance.t) : number :=
  snd (loadTotals appliances).

Definition requiredInverterSize (appliances : list SelectedAppliance.t) : number :=
  peakWattsOf appliances * Fin 0.7 * Fin 1.2.

Definition requiredStorageWh (appliances : list SelectedAppliance.t) : number :=
  dailyWhOf appliances * Fin 0.6.

Definition requiredPanelPower (appliances : list SelectedAppliance.t) : number :=
  (dailyWhOf appliances / Fin 4.5) * Fin 1.3.

(** The predicate of the first [catalog.find] of the inverter selection. *)
Definition adequateInverter (required : number) (i : CatalogItem.t) : bool :=
  isType ItemType.inverter i && (i.(CatalogItem.spec) >=? required).

Definition selectInverter (catalog : list CatalogItem.t) (required : number)
  : option CatalogItem.t :=
  orElse (find (adequateInverter required) catalog)
         (find (isType ItemType.inverter) catalog).

Definition firstOfType (k : ItemType.t) (catalog : list CatalogItem.t)
  : option CatalogItem.t :=
  find (isType k) catalog.

(** [item?.spec || d] and [item?.price || d] *)
Definition specOr (item : option CatalogItem.t) (d : number) : number :=
  orDefault (optChain item CatalogItem.spec) d.

Definition priceOr (item : option CatalogItem.t) (d : number) : number :=
  orDefault (optChain item CatalogItem.price) d.

Definition installCostOf (catalog : list CatalogItem.t) : number :=
  priceOr (firstOfType ItemType.installation catalog) (Fin 150000).

Definition totalAnnualSavingsOf (monthlyBill fuelCost : number) : number :=
  monthlyBill * Fin 12 + (fuelCost * Fin 12 * Fin 0.9).

(** ** Definitions used by the statements

    Sums over the appliance list, validated inputs, catalogs that lack a kind
    of item, and the notions the specification uses for the inverter
    selection and the payback period. *)

(** The energy and the rated power of one appliance entry. *)
Definition energyOf (app : SelectedAppliance.t) : number :=
  app.(SelectedAppliance.watts) * app.(SelectedAppliance.count)
  * app.(SelectedAppliance.hours).

Definition powerOf (app : SelectedAppliance.t) : number :=
  app.(SelectedAppliance.watts) * app.(SelectedAppliance.count).

(** The sum of [f] over the entries of a list, with no order of accumulation
    implied. *)
Fixpoint sumBy (f : SelectedAppliance.t -> number)
    (appliances : list SelectedAppliance.t) : number :=
  match appliances with
  | [] => Fin 0
  | app :: rest => f app + sumBy f rest
  end.

(** The sum over all entries of wattage x count x hours, as the specification
    words it, and the sum of wattage x count. *)
Definition energySum : list SelectedAppliance.t -> number := sumBy energyOf.
Definition powerSum : list SelectedAppliance.t -> number := sumBy powerOf.

(** Validated, non-negative inputs: the contract of the engine assumes them. *)
Definition validAppliance (app : SelectedAppliance.t) : Prop :=
  Num.nonneg app.(SelectedAppliance.watts)
  /\ Num.nonneg app.(SelectedAppliance.count)
  /\ Num.nonneg app.(SelectedAppliance.hours).

Definition validItem (i : CatalogItem.t) : Prop :=
  Num.nonneg i.(CatalogItem.price) /\ Num.nonneg i.(CatalogItem.spec).

(** An entry with a real demand: positive wattage, count and hours. *)
Definition hasDemand (app : SelectedAppliance.t) : Prop :=
  Num.positive app.(SelectedAppliance.watts)
  /\ Num.positive app.(SelectedAppliance.count)
  /\ Num.positive app.(SelectedAppliance.hours).

(** No item of [catalog] has type [k]. *)
Definition missing (k : ItemType.t) (catalog : list CatalogItem.t) : Prop :=
  forall i, In i catalog -> i.(CatalogItem.type) <> k.

(** The price of a chosen item, 0 when there is none. *)
Definition unitPrice (item : option CatalogItem.t) : number :=
  match item with
  | Some i => i.(CatalogItem.price)
  | None => Fin 0
  end.

(** Every spec of the catalog is a finite number that is not negative. *)
Definition specsNonneg (catalog : list CatalogItem.t) : Prop :=
  forall i, In i catalog -> Num.nonneg i.(CatalogItem.spec).

(** [paybackYears] as the specification words it: a guarded division, where
    zero savings give a sentinel that is not a number. *)
Inductive Payback : Type :=
| Years (y : number)
| Unbounded.

Definition guardedPayback (totalCost savings : number) : Payback :=
  match savings with
  | Fin q => if Qeq_bool q 0 then Unbounded else Years (totalCost / savings)
  | _ => Years (totalCost / savings)
  end.

(** What [x / 0] evaluates to. *)
Definition overZero (x : number) : number :=
  match x with
  | Fin q => match q ?= 0 with Gt => PInf | Lt => NInf | Eq => NaN end
  | other => other
  end.

(** [x] is the first element of [l], in the order of [l], that satisfies [p]:
    what [l.find(p)] returns. *)
Definition firstMatch {A : Type} (p : A -> bool) (l : list A) (x : A) : Prop :=
  exists l1 l2, l = l1 ++ x :: l2 /\ p x = true /\ Forall (fun y => p y = false) l1.

(** The selection as the specification words it: an adequate inverter item of
    the lowest spec among the adequate ones. *)
Definition lowestAdequate (catalog : list CatalogItem.t) (required : number)
    (x : CatalogItem.t) : Prop :=
  In x catalog
  /\ adequateInverter required x = true
  /\ forall y, In y catalog -> adequateInverter required y = true ->
               (y.(CatalogItem.spec) >=? x.(CatalogItem.spec)) = true.

(** The entry with its [count] and [hours] replaced, as the calculator page
    does it ([{ ...item, [field]: newVal }]). *)
Definition withUsage (app : SelectedAppliance.t) (count hours : number)
  : SelectedAppliance.t :=
  SelectedAppliance.mk app.(SelectedAppliance.id) app.(SelectedAppliance.name)
    app.(SelectedAppliance.watts) app.(SelectedAppliance.defaultHours) count hours.

(** ** The pages around the engine

    The handlers and render-time expressions of the calculator page, the
    dashboard and the application shell that feed the engine or read its
    result.  React state is passed explicitly: a handler is a function from
    the state it reads to the state it sets. *)

Module NumMore.

(** [x < y]; false as soon as one side is [NaN]. *)
Definition ltb (x y : number) : bool :=
  match x, y with
  | NaN, _ | _, NaN => false
  | Fin a, Fin b => negb (Qle_bool b a)
  | PInf, _ | _, NInf => false
  | _, _ => true
  end.

(** [x - y] *)
Definition sub (x y : number) : number := Num.add x (Num.neg y).

(** [Math.round(x)]: the nearest integer, halves rounded up. *)
Definition round (x : number) : number :=
  match x with
  | Fin q => Fin (inject_Z (Qfloor (q + (1 # 2))))
  | other => other
  end.

End NumMore.

Notation "x <? y" := (NumMore.ltb x y) (at level 70, no associativity) : js_scope.
Notation "x >? y" := (NumMore.ltb y x) (at level 70, no associativity) : js_scope.
Notation "x - y" := (NumMore.sub x y) : js_scope.

(** [Appliance], without its [icon]. *)
Module Appliance.
Record t : Type := mk
  { id : string; name : string; watts : number; defaultHours : number }.
End Appliance.

(** The double quote character, for the name of the TV entry. *)
Definition dquote : string := String "034"%char EmptyString.

Definition COMMON_APPLIANCES : list Appliance.t :=
  [ Appliance.mk "bulb" "LED Light Bulb" (Fin 10) (Fin 8);
    Appliance.mk "fan" "Ceiling Fan" (Fin 75) (Fin 12);
    Appliance.mk "tv" ("LED TV (40-55" ++ dquote ++ ")")%string (Fin 100) (Fin 6);
    Appliance.mk "laptop" "Laptop / Phone" (Fin 65) (Fin 10);
    Appliance.mk "fridge" "Refrigerator" (Fin 200) (Fin 16);
    Appliance.mk "freezer" "Deep Freezer" (Fin 250) (Fin 12);
    Appliance.mk "ac1" "Inverter AC (1HP)" (Fin 1000) (Fin 8);
    Appliance.mk "pump" "Water Pump (Sumo)" (Fin 750) (Fin 1) ].

(** [{ ...app, count: 1, hours: app.defaultHours }] *)
Definition selectedOf (app : Appliance.t) : SelectedAppliance.t :=
  SelectedAppliance.mk app.(Appliance.id) app.(Appliance.name)
    app.(Appliance.watts) app.(Appliance.defaultHours)
    (Fin 1) app.(Appliance.defaultHours).

(** [toggleAppliance(app)], from the current [selectedAppliances] to the list
    given to [setSelectedAppliances]. *)
Definition toggleAppliance (selectedAppliances : list SelectedAppliance.t)
    (app : Appliance.t) : list SelectedAppliance.t :=
  let exists_ :=
    find (fun a => String.eqb a.(SelectedAppliance.id) app.(Appliance.id))
         selectedAppliances in
  match exists_ with
  | Some _ =>
      filter (fun a => negb (String.eqb a.(SelectedAppliance.id) app.(Appliance.id)))
             selectedAppliances
  | None => selectedAppliances ++ [selectedOf app]
  end.

(** The [field] argument of [updateAppliance]: ['count' | 'hours']. *)
Module UsageField.
Inductive t : Type := count | hours.
End UsageField.

(** [item[field]] and [{ ...item, [field]: newVal }] *)
Definition getUsage (field : UsageField.t) (item : SelectedAppliance.t) : number :=
  match field with
  | UsageField.count => item.(SelectedAppliance.count)
  | UsageField.hours => item.(SelectedAppliance.hours)
  end.

Definition setUsage (field : UsageField.t) (item : SelectedAppliance.t)
    (newVal : number) : SelectedAppliance.t :=
  match field with
  | UsageField.count => withUsage item newVal item.(SelectedAppliance.hours)
  | UsageField.hours => withUsage item item.(SelectedAppliance.count) newVal
  end.

(** The function mapped over the list by [updateAppliance]. *)
Definition updateItem (id : string) (field : UsageField.t) (delta : number)
    (item : SelectedAppliance.t) : SelectedAppliance.t :=
  if negb (String.eqb item.(SelectedAppliance.id) id) then item
  else
    let newVal := getUsage field item + delta in
    if newVal <? Fin 1 then item
    else setUsage field item newVal.

Definition updateAppliance (curr : list SelectedAppliance.t) (id : string)
    (field : UsageField.t) (delta : number) : list SelectedAppliance.t :=
  map (updateItem id field delta) curr.

(** [totalWatts] of the appliance step:
    [selectedAppliances.reduce((acc, curr) => acc + (curr.watts * curr.count), 0)] *)
Definition totalWatts (selectedAppliances : list SelectedAppliance.t) : number :=
  fold_left (fun acc curr =>
               acc + (curr.(SelectedAppliance.watts) * curr.(SelectedAppliance.count)))
            selectedAppliances (Fin 0).

(** The appliance lists the calculator page can hold: it starts empty, the
    appliance buttons call [toggleAppliance] on an entry of
    [COMMON_APPLIANCES], and the [+] and [-] buttons call [updateAppliance]
    with a delta of 1 or -1. *)
Inductive reachableSelection : list SelectedAppliance.t -> Prop :=
| reach_initial : reachableSelection []
| reach_toggle l app :
    reachableSelection l -> In app COMMON_APPLIANCES ->
    reachableSelection (toggleAppliance l app)
| reach_update l id field delta :
    reachableSelection l -> delta = Fin 1 \/ delta = Fin (-1) ->
    reachableSelection (updateAppliance l id field delta).

(** An integer that is at least 1. *)
Definition integerFrom1 (x : number) : Prop :=
  match x with
  | Fin q => exists z : Z, q == inject_Z z /\ (1 <= z)%Z
  | _ => False
  end.

(** An entry made from an appliance of the table, with a count and hours
    that are integers from 1 up. *)
Definition fromTable (e : SelectedAppliance.t) : Prop :=
  (exists app, In app COMMON_APPLIANCES
               /\ e.(SelectedAppliance.id) = app.(Appliance.id)
               /\ e.(SelectedAppliance.name) = app.(Appliance.name)
               /\ e.(SelectedAppliance.watts) = app.(Appliance.watts)
               /\ e.(SelectedAppliance.defaultHours) = app.(Appliance.defaultHours))
  /\ integerFrom1 e.(SelectedAppliance.count)
  /\ integerFrom1 e.(SelectedAppliance.hours).

(** Two entries that differ at most in the representation of their numbers. *)
Definition sameEntry (a b : SelectedAppliance.t) : Prop :=
  a.(SelectedAppliance.id) = b.(SelectedAppliance.id)
  /\ a.(SelectedAppliance.name) = b.(SelectedAppliance.name)
  /\ a.(SelectedAppliance.watts) =n= b.(SelectedAppliance.watts)
  /\ a.(SelectedAppliance.defaultHours) =n= b.(SelectedAppliance.defaultHours)
  /\ a.(SelectedAppliance.count) =n= b.(SelectedAppliance.count)
  /\ a.(SelectedAppliance.hours) =n= b.(SelectedAppliance.hours).

(** Every count and hours of the list is at least 1. *)
Definition usageFrom1 (l : list SelectedAppliance.t) : Prop :=
  Forall (fun e => Num.le (Fin 1) e.(SelectedAppliance.count)
                   /\ Num.le (Fin 1) e.(SelectedAppliance.hours)) l.

(** *** The catalog editor *)

(** [handleChange(id, 'price', val)] of the catalog editor, the one call the
    page makes: [items.map(i => i.id === id ? { ...i, price: val } : i)]. *)
Definition withPrice (i : CatalogItem.t) (val : number) : CatalogItem.t :=
  CatalogItem.mk i.(CatalogItem.id) i.(CatalogItem.name) i.(CatalogItem.type)
    val i.(CatalogItem.spec) i.(CatalogItem.unit).

Definition handleChangePrice (items : list CatalogItem.t) (id : string)
    (val : number) : list CatalogItem.t :=
  map (fun i => if String.eqb i.(CatalogItem.id) id then withPrice i val else i)
      items.

(** What the references to two items have in common when they differ at most
    in price. *)
Definition sameButPrice (a b : option CatalogItem.t) : Prop :=
  option_map CatalogItem.id a = option_map CatalogItem.id b
  /\ option_map CatalogItem.name a = option_map CatalogItem.name b
  /\ option_map CatalogItem.type a = option_map CatalogItem.type b
  /\ option_map CatalogItem.spec a = option_map CatalogItem.spec b.

(** *** The result page *)

(** Reading a property of a value that may be [undefined], without [?.]:
    a [TypeError] when it is. *)
Inductive Outcome (A : Type) : Type :=
| Returned (a : A)
| TypeError.

Arguments Returned {A} a.
Arguments TypeError {A}.

Definition member {A B : Type} (o : option A) (f : A -> B) : Outcome B :=
  match o with
  | Some a => Returned (f a)
  | None => TypeError
  end.

Definition bind {A B : Type} (m : Outcome A) (k : A -> Outcome B) : Outcome B :=
  match m with
  | Returned a => k a
  | TypeError => TypeError
  end.

(** The three item names the result page reads, in the order it renders
    them: [result.system.panel.name], [result.system.inverter.name],
    [result.system.battery.name]. *)
Definition equipmentNames (result : Result) : Outcome (string * string * string) :=
  bind (member result.(system).(panel) CatalogItem.name) (fun p =>
  bind (member result.(system).(inverter) CatalogItem.name) (fun i =>
  bind (member result.(system).(battery) CatalogItem.name) (fun b =>
  Returned (p, i, b)))).

(** The equipment cost the result page shows:
    [result.financials.totalCost - 150000]. *)
Definition shownEquipmentCost (result : Result) : number :=
  result.(financials).(totalCost) - Fin 150000.

(** [equipmentCost] of the engine. *)
Definition equipmentCostOf (appliances : list SelectedAppliance.t)
    (catalog : list CatalogItem.t) : number :=
  let inv := selectInverter catalog (requiredInverterSize appliances) in
  let bat := firstOfType ItemType.battery catalog in
  let pan := firstOfType ItemType.panel catalog in
  Num.ceil (requiredInverterSize appliances / specOr inv (Fin 5000)) * priceOr inv (Fin 0)
  + Num.ceil (requiredStorageWh appliances / specOr bat (Fin 4800)) * priceOr bat (Fin 0)
  + Num.ceil (requiredPanelPower appliances / specOr pan (Fin 550)) * priceOr pan (Fin 0).

(** *** Leads *)

Module Lead.
Inductive Status : Type := New | Contacted | Closed.
Record t : Type := mk
  { id : string; name : string; email : string; phone : string;
    consumption : number; systemSize : string; totalCost : number;
    status : Status; date : string }.
End Lead.

(** [addLead(lead)]: [setLeads(prev => [lead, ...prev])] *)
Definition addLead (lead : Lead.t) (prev : list Lead.t) : list Lead.t :=
  lead :: prev.

(** The pipeline value of the dashboard:
    [leads.reduce((acc, curr) => acc + curr.totalCost, 0)] *)
Definition pipelineValue (leads : list Lead.t) : number :=
  fold_left (fun acc curr => acc + curr.(Lead.totalCost)) leads (Fin 0).

(** The toasts a handler sends, without the id the toaster gives them. *)
Module Toast.
Inductive Kind : Type := success | error | loading | default.
Record t : Type := mk
  { type : Kind; message : string; description : option string }.
End Toast.

(** The state of the calculator page that [handleCalculate] reads and sets,
    with the leads of the application. *)
Module Calc.
Record t : Type := mk
  { step : nat;
    bill : number; fuel : number;
    selectedAppliances : list SelectedAppliance.t;
    name : string; email : string; phone : string;
    result : option Result;
    leads : list Lead.t }.
End Calc.

Section HandleCalculate.

(** The conversion of a number to a string in a template literal, and the
    two values the handler takes from the environment:
    [Math.random().toString(36).substr(2, 9)] and
    [new Date().toLocaleDateString()]. *)
Variable numberToString : number -> string.
Variable randomId : string.
Variable today : string.

(** The lead built from a result. *)
Definition leadOf (st : Calc.t) (calc : Result) : Lead.t :=
  Lead.mk randomId st.(Calc.name) st.(Calc.email) st.(Calc.phone)
    (NumMore.round (calc.(details).(dailyWh) / Fin 1000))
    (numberToString (specOr calc.(system).(inverter) (Fin 0) / Fin 1000) ++ "kVA")%string
    calc.(financials).(totalCost) Lead.New today.

(** [handleCalculate()], with the toasts sent on the way and the outcome once
    the two-second promise of [toast.promise] has resolved.  The promise never
    rejects, and the callback works on the values the handler read when it
    was called.  The callback sets the result, the lead and step 4 in one
    batch, and the page then renders step 4, where it reads the three item
    names of the result: when that read raises, the render fails and nothing
    of the batch, the lead included, is committed. *)
Definition handleCalculate (catalog : list CatalogItem.t) (st : Calc.t)
  : list Toast.t * Outcome Calc.t :=
  if String.eqb st.(Calc.name) "" || String.eqb st.(Calc.email) "" then
    ([Toast.mk Toast.error "Please enter your details" None], Returned st)
  else
    let calc := calculateSolarSystem st.(Calc.bill) st.(Calc.fuel)
                  st.(Calc.selectedAppliances) catalog in
    ([Toast.mk Toast.loading "Calculating best system..." None;
      Toast.mk Toast.success "Quote generated successfully" None],
     bind (equipmentNames calc) (fun _ =>
       Returned
         (Calc.mk 4 st.(Calc.bill) st.(Calc.fuel) st.(Calc.selectedAppliances)
            st.(Calc.name) st.(Calc.email) st.(Calc.phone)
            (Some calc) (addLead (leadOf st calc) st.(Calc.leads))))).

End HandleCalculate.

(** *** The toaster *)

(** A toast on screen: [{ ...e.detail, id }]. *)
Module Shown.
Record t : Type := mk { id : string; detail : Toast.t }.
End Shown.

(** The state of [Toaster]: the toasts on screen and the ids whose four-second
    timer is running. *)
Module Toaster.
Record t : Type := mk { toasts : list Shown.t; timers : list string }.
End Toaster.

Definition isLoading (k : Toast.Kind) : bool :=
  match k with
  | Toast.loading => true
  | _ => false
  end.

(** [handleToast(e)], where [id] is the value drawn from [Math.random()]:
    the toast is appended, and a timer is set unless its type is
    ['loading']. *)
Definition handleToast (id : string) (detail : Toast.t) (st : Toaster.t)
  : Toaster.t :=
  Toaster.mk (st.(Toaster.toasts) ++ [Shown.mk id detail])
             (if negb (isLoading detail.(Toast.type))
              then st.(Toaster.timers) ++ [id]
              else st.(Toaster.timers)).

(** The callback of a timer: [prev.filter(t => t.id !== id)]. *)
Definition timerFires (id : string) (st : Toaster.t) : Toaster.t :=
  Toaster.mk (filter (fun t => negb (String.eqb t.(Shown.id) id)) st.(Toaster.toasts))
             (remove string_dec id st.(Toaster.timers)).

Inductive ToasterEvent : Type :=
| Dispatched (id : string) (detail : Toast.t)
| Fired (id : string).

(** One event of the toaster; a timer fires only once it has been set. *)
Definition toasterStep (st : option Toaster.t) (ev : ToasterEvent)
  : option Toaster.t :=
  match st, ev with
  | None, _ => None
  | Some st, Dispatched id detail => Some (handleToast id detail st)
  | Some st, Fired id =>
      if in_dec string_dec id st.(Toaster.timers)
      then Some (timerFires id st)
      else None
  end.

Definition runToaster (events : list ToasterEvent) : option Toaster.t :=
  fold_left toasterStep events (Some (Toaster.mk [] [])).

(** The ids drawn for the toasts of a run. *)
Definition drawnIds (events : list ToasterEvent) : list string :=
  flat_map (fun ev => match ev with
                      | Dispatched id _ => [id]
                      | Fired _ => []
                      end) events.

(** *** The application shell *)

Module User.
Record t : Type := mk
  { id : string; name : string; email : string; companyName : string }.
End User.

Inductive Page : Type := LandingPage | AuthPage | DashboardPage | CalculatorPage.

(** The router of [App]. *)
Definition currentComponent (route : string) (user : option User.t) : Page :=
  if String.eqb route "/login" then AuthPage
  else if String.eqb route "/dashboard" then
    match user with
    | Some _ => DashboardPage
    | None => AuthPage
    end
  else if String.eqb route "/calculator" then CalculatorPage
  else LandingPage.

(** The session part of the state of [App], and its actions. *)
Module Session.
Record t : Type := mk { user : option User.t; route : string }.
End Session.

Definition login (email : string) (s : Session.t) : Session.t :=
  Session.mk (Some (User.mk "1" "Installer Admin" email "Suntap Energy Ltd."))
             s.(Session.route).

Definition logout (s : Session.t) : Session.t := Session.mk None "/".

Definition navigate (path : string) (s : Session.t) : Session.t :=
  Session.mk s.(Session.user) path.

Inductive SessionAction : Type :=
| Login (email : string)
| Logout
| Navigate (path : string).

Definition act (s : Session.t) (a : SessionAction) : Session.t :=
  match a with
  | Login email => login email s
  | Logout => logout s
  | Navigate path => navigate path s
  end.

Definition isLogin (a : SessionAction) : bool :=
  match a with
  | Login _ => true
  | _ => false
  end.

(** *** Class names *)

(** An argument of [cn]: [string | undefined | null | false]. *)
Inductive ClassValue : Type :=
| Class (s : string)
| Undefined
| Null
| False_.

(** [Boolean(c)], and the string of a truthy argument. *)
Definition classTruthy (c : ClassValue) : bool :=
  match c with
  | Class s => negb (String.eqb s "")
  | _ => false
  end.

Definition classString (c : ClassValue) : string :=
  match c with
  | Class s => s
  | _ => ""
  end.

(** [cn(...classes)]: [classes.filter(Boolean).join(' ')] *)
Definition cn (classes : list ClassValue) : string :=
  String.concat " " (map classString (filter classTruthy classes)).

(** ** Whole-number requests

    Binary64 computes sums, products and comparisons of whole numbers
    exactly as long as every value stays within [Number.MAX_SAFE_INTEGER].
    The statements on counts, costs and sums that need exact arithmetic are
    made for such requests: whole-number wattage, count and hours, as the
    calculator page produces them, whole-number prices and specs, as the
    default catalog has them, and loads within a limit under which the
    rounded products by 0.7, 1.2, 0.6 and 1.3 fall on the same side of every
    whole multiple of a spec as the exact ones. *)

(** [Number.isFinite(x)] *)
Definition isFinite (x : number) : bool :=
  match x with
  | Fin _ => true
  | _ => false
  end.

(** [Number.MAX_SAFE_INTEGER], 2^53 - 1. *)
Definition MAX_SAFE_INTEGER : number := Fin 9007199254740991.

(** The limit on the peak load (W) and on the daily energy (Wh) of a request
    in the statements on sizing: 10^12. *)
Definition LOAD_LIMIT : number := Fin 1000000000000.

(** A whole number: an integer that is not negative. *)
Definition whole (x : number) : Prop := Num.isInteger x /\ Num.nonneg x.

Definition wholeAppliance (app : SelectedAppliance.t) : Prop :=
  whole app.(SelectedAppliance.watts)
  /\ whole app.(SelectedAppliance.count)
  /\ whole app.(SelectedAppliance.hours).

Definition wholeItem (i : CatalogItem.t) : Prop :=
  whole i.(CatalogItem.price) /\ whole i.(CatalogItem.spec).

(** Whole-number entries whose peak load and daily energy are within
    [limit]. *)
Definition wholeLoad (limit : number) (appliances : list SelectedAppliance.t)
  : Prop :=
  Forall wholeAppliance appliances
  /\ Num.le (peakWattsOf appliances) limit
  /\ Num.le (dailyWhOf appliances) limit.

(** ** The engine in binary64

    The same function once more, over the binary64 numbers of the machine
    ([PrimFloat]), with round-to-nearest on every operation, both zeros, the
    infinities and [NaN], as JavaScript has them.  It is used to run the
    engine on inputs outside the whole-number range, where the exact model
    above and the program differ. *)

Module Binary64.

Import PrimFloat.
Local Open Scope float_scope.
Set Warnings "-inexact-float".

(** The fields the engine reads of a catalog item and of an appliance. *)
Record Item : Type := mkItem
  { type : ItemType.t; price : float; spec : float }.

Record Entry : Type := mkEntry
  { watts : float; count : float; hours : float }.

(** The object returned by [calculateSolarSystem], its four parts in one
    record. *)
Record Result : Type := mkResult
  { inverterCount : float; batteryCount : float; panelCount : float;
    inverter : option Item; battery : option Item; panel : option Item;
    totalCost : float; totalAnnualSavings : float; roiYears : float;
    co2Saved : float;
    dailyWh : float; designedPeakLoad : float }.

(** ToBoolean on a number: [0], [-0] and [NaN] are falsy. *)
Definition truthy (x : float) : bool := negb (is_nan x || (x =? 0)).

(** [v || d] where [v] is a number or [undefined]. *)
Definition orDefault (v : option float) (d : float) : float :=
  match v with
  | Some x => if truthy x then x else d
  | None => d
  end.

(** 2^52: from here on every binary64 number is an integer. *)
Definition two52 : float := 4503599627370496.

(** [Math.ceil(x)].  Below 2^52, [(|x| + 2^52) - 2^52] is [|x|] rounded to
    the nearest integer, which is then corrected upwards or downwards;
    zeros, infinities, [NaN] and the numbers from 2^52 on are returned as
    they are. *)
Definition ceil (x : float) : float :=
  if x =? 0 then x
  else if abs x <? two52 then
    let t := (abs x + two52) - two52 in
    if x <? 0 then - (if abs x <? t then t - 1 else t)
    else (if t <? abs x then t + 1 else t)
  else x.

(** [i.type === k] *)
Definition isType (k : ItemType.t) (i : Item) : bool :=
  ItemType.eqb i.(type) k.

(** The body of [appliances.forEach], acting on [(dailyWh, peakWatts)]. *)
Definition forEachBody (acc : float * float) (app : Entry) : float * float :=
  let '(dailyWh, peakWatts) := acc in
  (dailyWh + app.(watts) * app.(count) * app.(hours),
   peakWatts + app.(watts) * app.(count)).

Definition calculateSolarSystem (monthlyBill fuelCost : float)
    (appliances : list Entry) (catalog : list Item) : Result :=
  let '(dailyWh, peakWatts) := fold_left forEachBody appliances (0, 0) in

  let diversityFactor := 0.7 in
  let designedPeakLoad := peakWatts * diversityFactor in

  let requiredInverterSize := designedPeakLoad * 1.2 in
  let inverter :=
    orElse
      (find (fun i => isType ItemType.inverter i
                      && (requiredInverterSize <=? i.(spec))) catalog)
      (find (fun i => isType ItemType.inverter i) catalog) in
  let inverterCount :=
    ceil (requiredInverterSize / orDefault (optChain inverter spec) 5000) in

  let requiredStorageWh := dailyWh * 0.6 in
  let battery := find (fun i => isType ItemType.battery i) catalog in
  let batteryCount :=
    ceil (requiredStorageWh / orDefault (optChain battery spec) 4800) in

  let requiredPanelPower := (dailyWh / 4.5) * 1.3 in
  let panel := find (fun i => isType ItemType.panel i) catalog in
  let panelCount :=
    ceil (requiredPanelPower / orDefault (optChain panel spec) 550) in

  let equipmentCost :=
    (inverterCount * orDefault (optChain inverter price) 0)
    + (batteryCount * orDefault (optChain battery price) 0)
    + (panelCount * orDefault (optChain panel price) 0) in

  let installCost :=
    orDefault (optChain (find (fun i => isType ItemType.installation i) catalog)
                        price) 150000 in
  let totalCost := equipmentCost + installCost in

  let annualGridCost := monthlyBill * 12 in
  let annualFuelCost := fuelCost * 12 in
  let totalAnnualSavings := annualGridCost + (annualFuelCost * 0.9) in
  let co2Saved := dailyWh * 0.4 * 365 / 1000 in

  {| inverterCount := inverterCount; batteryCount := batteryCount;
     panelCount := panelCount; inverter := inverter;
     battery := battery; panel := panel;
     totalCost := totalCost; totalAnnualSavings := totalAnnualSavings;
     roiYears := totalCost / totalAnnualSavings;
     co2Saved := co2Saved;
     dailyWh := dailyWh; designedPeakLoad := designedPeakLoad |}.

(** [DEFAULT_CATALOG], with the fields the engine reads. *)
Definition DEFAULT_CATALOG : list Item :=
  [ mkItem ItemType.panel 85000 550;
    mkItem ItemType.inverter 650000 5000;
    mkItem ItemType.battery 1200000 5000;
    mkItem ItemType.installation 150000 1 ].

(** The smallest positive binary64 number, 2^-1074 (about 4.9e-324), and the
    largest power of two, 2^1023. *)
Definition MIN_VALUE : float := 0x1p-1074.
Definition two1023 : float := 0x1p1023.

End Binary64.

(** * Properties *)

(** Validity of a concrete appliance list or catalog, by evaluation. *)
Ltac concrete_valid := repeat constructor; simpl; discriminate.

(** Whole-number entries, items and loads of a concrete request, by
    evaluation. *)
Ltac concrete_whole :=
  repeat match goal with
  | |- wholeLoad _ _ => split; [|split; vm_compute; discriminate]
  | |- Forall _ [] => constructor
  | |- Forall _ (_ :: _) => constructor
  | |- wholeAppliance _ => split; [|split]
  | |- wholeItem _ => split
  | |- whole _ => split; simpl
  | |- exists z : Z, ?q == inject_Z z => exists (Qfloor q); vm_compute; reflexivity
  | |- (0 <= _)%Q => discriminate
  | |- Forall ?P ?l => let l' := eval hnf in l in progress change (Forall P l')
  end.

Lemma calculateSolarSystem_eq monthlyBill fuelCost appliances catalog :
  calculateSolarSystem monthlyBill fuelCost appliances catalog =
  let inv := selectInverter catalog (requiredInverterSize appliances) in
  let bat := firstOfType ItemType.battery catalog in
  let pan := firstOfType ItemType.panel catalog in
  let nInv := Num.ceil (requiredInverterSize appliances / specOr inv (Fin 5000)) in
  let nBat := Num.ceil (requiredStorageWh appliances / specOr bat (Fin 4800)) in
  let nPan := Num.ceil (requiredPanelPower appliances / specOr pan (Fin 550)) in
  let cost := nInv * priceOr inv (Fin 0) + nBat * priceOr bat (Fin 0)
              + nPan * priceOr pan (Fin 0) + installCostOf catalog in
  let savings := totalAnnualSavingsOf monthlyBill fuelCost in
  {| system := {| inverterCount := nInv; batteryCount := nBat; panelCount := nPan;
                  inverter := inv; battery := bat; panel := pan |};
     financials := {| totalCost := cost; totalAnnualSavings := savings;
                      roiYears := cost / savings |};
     impact := {| co2Saved := dailyWhOf appliances * Fin 0.4 * Fin 365 / Fin 1000 |};
     details := {| dailyWh := dailyWhOf appliances;
                   designedPeakLoad := peakWattsOf appliances * Fin 0.7 |} |}.
Proof.
  unfold calculateSolarSystem, requiredInverterSize, requiredStorageWh,
    requiredPanelPower, dailyWhOf, peakWattsOf, loadTotals.
  destruct (fold_left forEachBody appliances (Fin 0, Fin 0)) as [d p].
  reflexivity.
Qed.

(** ** Field accessors of the result, in terms of the named locals *)

Lemma dailyWh_eq b f a c :
  (calculateSolarSystem b f a c).(details).(dailyWh) = dailyWhOf a.
Proof. rewrite calculateSolarSystem_eq. reflexivity. Qed.

Lemma designedPeakLoad_eq b f a c :
  (calculateSolarSystem b f a c).(details).(designedPeakLoad)
  = peakWattsOf a * Fin 0.7.
Proof. rewrite calculateSolarSystem_eq. reflexivity. Qed.

Lemma inverter_eq b f a c :
  (calculateSolarSystem b f a c).(system).(inverter)
  = selectInverter c (requiredInverterSize a).
Proof. rewrite calculateSolarSystem_eq. reflexivity. Qed.

Lemma battery_eq b f a c :
  (calculateSolarSystem b f a c).(system).(battery) = firstOfType ItemType.battery c.
Proof. rewrite calculateSolarSystem_eq. reflexivity. Qed.

Lemma panel_eq b f a c :
  (calculateSolarSystem b f a c).(system).(panel) = firstOfType ItemType.panel c.
Proof. rewrite calculateSolarSystem_eq. reflexivity. Qed.

Lemma inverterCount_eq b f a c :
  (calculateSolarSystem b f a c).(system).(inverterCount)
  = Num.ceil (requiredInverterSize a
              / specOr (selectInverter c (requiredInverterSize a)) (Fin 5000)).
Proof. rewrite calculateSolarSystem_eq. reflexivity. Qed.

Lemma batteryCount_eq b f a c :
  (calculateSolarSystem b f a c).(system).(batteryCount)
  = Num.ceil (requiredStorageWh a
              / specOr (firstOfType ItemType.battery c) (Fin 4800)).
Proof. rewrite calculateSolarSystem_eq. reflexivity. Qed.

Lemma panelCount_eq b f a c :
  (calculateSolarSystem b f a c).(system).(panelCount)
  = Num.ceil (requiredPanelPower a
              / specOr (firstOfType ItemType.panel c) (Fin 550)).
Proof. rewrite calculateSolarSystem_eq. reflexivity. Qed.

Lemma totalCost_eq b f a c :
  let r := calculateSolarSystem b f a c in
  r.(financials).(totalCost)
  = r.(system).(inverterCount) * priceOr r.(system).(inverter) (Fin 0)
    + r.(system).(batteryCount) * priceOr r.(system).(battery) (Fin 0)
    + r.(system).(panelCount) * priceOr r.(system).(panel) (Fin 0)
    + installCostOf c.
Proof. cbn zeta. rewrite calculateSolarSystem_eq. reflexivity. Qed.

Lemma totalAnnualSavings_eq b f a c :
  (calculateSolarSystem b f a c).(financials).(totalAnnualSavings)
  = totalAnnualSavingsOf b f.
Proof. rewrite calculateSolarSystem_eq. reflexivity. Qed.

Lemma roiYears_eq b f a c :
  let r := calculateSolarSystem b f a c in
  r.(financials).(roiYears)
  = r.(financials).(totalCost) / r.(financials).(totalAnnualSavings).
Proof. cbn zeta. rewrite calculateSolarSystem_eq. reflexivity. Qed.

(** The engine on the scenarios of the specification: one 100 W appliance
    for 6 hours a day, and a bill of 50000 with a fuel cost of 30000. *)
Example one_tv_six_hours :
  let tv := SelectedAppliance.mk "tv" "LED TV (40-55 in)" (Fin 100) (Fin 6) (Fin 1) (Fin 6) in
  let r := calculateSolarSystem (Fin 0) (Fin 0) [tv] DEFAULT_CATALOG in
  r.(details).(dailyWh) = Fin 600
  /\ r.(details).(designedPeakLoad) =n= Fin 70
  /\ r.(system).(inverterCount) = Fin 1
  /\ r.(system).(batteryCount) = Fin 1
  /\ r.(system).(panelCount) = Fin 1
  /\ r.(financials).(totalCost) = Fin 2085000.
Proof. cbn zeta. repeat split; reflexivity. Qed.

Example savings_of_bill_and_fuel :
  let r := calculateSolarSystem (Fin 50000) (Fin 30000) [] DEFAULT_CATALOG in
  r.(financials).(totalAnnualSavings) =n= Fin 924000
  /\ r.(system).(inverterCount) = Fin 0
  /\ r.(financials).(totalCost) = Fin 150000.
Proof. cbn zeta. repeat split; reflexivity. Qed.

(** ** Facts about numbers *)

Module NumFacts.

Lemma num_eq_refl x : x =n= x.
Proof. destruct x; simpl; auto with qarith. Qed.

Lemma num_eq_sym x y : x =n= y -> y =n= x.
Proof. destruct x, y; simpl; auto with qarith. Qed.

Lemma num_eq_trans x y z : x =n= y -> y =n= z -> x =n= z.
Proof.
  destruct x, y, z; simpl; try tauto.
  intros H1 H2. rewrite H1. exact H2.
Qed.

#[export] Instance eq_equiv : Equivalence Num.eq.
Proof.
  split.
  - exact num_eq_refl.
  - exact num_eq_sym.
  - exact num_eq_trans.
Qed.

(** [Qeq_bool] and [?=] respect [==]. *)
Lemma Qeq_bool_0_compat a b : a == b -> Qeq_bool a 0 = Qeq_bool b 0.
Proof.
  intros H. destruct (Qeq_bool b 0) eqn:E.
  - apply Qeq_bool_iff in E. apply Qeq_bool_iff. rewrite H. exact E.
  - destruct (Qeq_bool a 0) eqn:E'; [|reflexivity].
    apply Qeq_bool_iff in E'. rewrite H in E'.
    apply Qeq_bool_iff in E'. congruence.
Qed.

Lemma Qle_bool_0_compat a b : a == b -> Qle_bool 0 a = Qle_bool 0 b.
Proof.
  intros H. destruct (Qle_bool 0 b) eqn:E.
  - apply Qle_bool_iff in E. apply Qle_bool_iff. rewrite H. exact E.
  - destruct (Qle_bool 0 a) eqn:E'; [|reflexivity].
    apply Qle_bool_iff in E'. rewrite H in E'.
    apply Qle_bool_iff in E'. congruence.
Qed.

Lemma Qcompare_0_compat a b : a == b -> (a ?= 0) = (b ?= 0).
Proof. intros H. rewrite H. reflexivity. Qed.

#[export] Instance add_proper : Proper (Num.eq ==> Num.eq ==> Num.eq) Num.add.
Proof.
  intros x x' Hx y y' Hy.
  destruct x, x'; simpl in Hx; try contradiction;
    destruct y, y'; simpl in Hy; try contradiction; simpl; auto.
  rewrite Hx, Hy. reflexivity.
Qed.

#[export] Instance mul_proper : Proper (Num.eq ==> Num.eq ==> Num.eq) Num.mul.
Proof.
  intros x x' Hx y y' Hy.
  destruct x, x'; simpl in Hx; try contradiction;
    destruct y, y'; simpl in Hy; try contradiction; simpl; auto;
    try (rewrite (Qcompare_0_compat Hx)); try (rewrite (Qcompare_0_compat Hy));
    try apply num_eq_refl.
  rewrite Hx, Hy. reflexivity.
Qed.

#[export] Instance div_proper : Proper (Num.eq ==> Num.eq ==> Num.eq) Num.div.
Proof.
  intros x x' Hx y y' Hy.
  destruct x, x'; simpl in Hx; try contradiction;
    destruct y, y'; simpl in Hy; try contradiction; simpl; auto;
    try (rewrite (Qle_bool_0_compat Hy)); try apply num_eq_refl;
    try reflexivity.
  rewrite (Qeq_bool_0_compat Hy), (Qcompare_0_compat Hx).
  destruct (Qeq_bool q2 0) eqn:E.
  - apply num_eq_refl.
  - simpl. rewrite Hx, Hy. reflexivity.
Qed.

#[export] Instance ceil_proper : Proper (Num.eq ==> Num.eq) Num.ceil.
Proof.
  intros x x' Hx. destruct x, x'; simpl in Hx; try contradiction; simpl; auto.
  rewrite Hx. reflexivity.
Qed.

Lemma add_comm x y : x + y =n= y + x.
Proof. destruct x, y; simpl; auto. apply Qplus_comm. Qed.

Lemma add_assoc x y z : x + (y + z) =n= (x + y) + z.
Proof. destruct x, y, z; simpl; auto. apply Qplus_assoc. Qed.

Lemma add_0_l x : Fin 0 + x =n= x.
Proof. destruct x; simpl; auto. apply Qplus_0_l. Qed.

(** *** Order on finite values *)

#[export] Instance le_proper : Proper (Num.eq ==> Num.eq ==> iff) Num.le.
Proof.
  intros x x' Hx y y' Hy.
  destruct x, x'; simpl in Hx; try contradiction;
    destruct y, y'; simpl in Hy; try contradiction; simpl; try tauto.
  rewrite Hx, Hy. tauto.
Qed.

#[export] Instance nonneg_proper : Proper (Num.eq ==> iff) Num.nonneg.
Proof.
  intros x x' Hx. destruct x, x'; simpl in Hx; try contradiction; simpl; try tauto.
  rewrite Hx. tauto.
Qed.

#[export] Instance positive_proper : Proper (Num.eq ==> iff) Num.positive.
Proof.
  intros x x' Hx. destruct x, x'; simpl in Hx; try contradiction; simpl; try tauto.
  rewrite Hx. tauto.
Qed.

Lemma positive_nonneg x : Num.positive x -> Num.nonneg x.
Proof. destruct x; simpl; try tauto. apply Qlt_le_weak. Qed.

Lemma num_le_refl x : Num.nonneg x -> Num.le x x.
Proof. destruct x; simpl; try tauto. intros _. apply Qle_refl. Qed.

Lemma nonneg_le_trans x y : Num.nonneg x -> Num.le x y -> Num.nonneg y.
Proof. destruct x, y; simpl; try tauto. apply Qle_trans. Qed.

Lemma add_le_mono x x' y y' :
  Num.le x x' -> Num.le y y' -> Num.le (x + y) (x' + y').
Proof. destruct x, x', y, y'; simpl; try tauto. apply Qplus_le_compat. Qed.

Lemma mul_le_mono x x' y y' :
  Num.nonneg x -> Num.le x x' -> Num.nonneg y -> Num.le y y' ->
  Num.le (x * y) (x' * y').
Proof.
  destruct x as [a| | |], x' as [a'| | |], y as [b| | |], y' as [b'| | |];
    simpl; try tauto.
  intros Ha Haa Hb Hbb. apply Qle_trans with (a' * b)%Q.
  - apply Qmult_le_compat_r; assumption.
  - rewrite (Qmult_comm a' b), (Qmult_comm a' b').
    apply Qmult_le_compat_r; [assumption|]. apply Qle_trans with a; assumption.
Qed.

Lemma nonneg_add x y : Num.nonneg x -> Num.nonneg y -> Num.nonneg (x + y).
Proof. destruct x, y; simpl; try tauto. intros. lra. Qed.

Lemma nonneg_mul x y : Num.nonneg x -> Num.nonneg y -> Num.nonneg (x * y).
Proof. destruct x, y; simpl; try tauto. apply Qmult_le_0_compat. Qed.

Lemma positive_mul x y : Num.positive x -> Num.positive y -> Num.positive (x * y).
Proof. destruct x, y; simpl; try tauto. apply Qmult_lt_0_compat. Qed.

Lemma positive_add_l x y : Num.positive x -> Num.nonneg y -> Num.positive (x + y).
Proof. destruct x, y; simpl; try tauto. intros. lra. Qed.

Lemma positive_add_r x y : Num.nonneg x -> Num.positive y -> Num.positive (x + y).
Proof. destruct x, y; simpl; try tauto. intros. lra. Qed.

(** *** Division by a positive finite divisor *)

Lemma div_positive_divisor a b :
  0 < b -> Fin a / Fin b = Fin (a / b)%Q.
Proof.
  intros Hb. simpl. destruct (Qeq_bool b 0) eqn:E; [|reflexivity].
  apply Qeq_bool_iff in E. rewrite E in Hb. exfalso. exact (Qlt_irrefl 0 Hb).
Qed.

Lemma Qdiv_le_mono a a' b : 0 < b -> a <= a' -> (a / b <= a' / b)%Q.
Proof.
  intros Hb H. unfold Qdiv. apply Qmult_le_compat_r; [exact H|].
  apply Qlt_le_weak, Qinv_lt_0_compat, Hb.
Qed.

Lemma Qdiv_nonneg a b : 0 < b -> 0 <= a -> (0 <= a / b)%Q.
Proof.
  intros Hb H. unfold Qdiv. apply Qmult_le_0_compat; [exact H|].
  apply Qlt_le_weak, Qinv_lt_0_compat, Hb.
Qed.

Lemma Qdiv_positive a b : 0 < b -> 0 < a -> (0 < a / b)%Q.
Proof.
  intros Hb H. unfold Qdiv. apply Qmult_lt_0_compat; [exact H|].
  apply Qinv_lt_0_compat, Hb.
Qed.

Lemma div_le_mono x x' d :
  Num.positive d -> Num.le x x' -> Num.le (x / d) (x' / d).
Proof.
  destruct d as [b| | |]; simpl; try tauto. intros Hb.
  destruct x as [a| | |], x' as [a'| | |]; try (simpl; tauto).
  rewrite !div_positive_divisor by exact Hb. simpl. apply Qdiv_le_mono, Hb.
Qed.

Lemma nonneg_div x d : Num.nonneg x -> Num.positive d -> Num.nonneg (x / d).
Proof.
  destruct d as [b| | |]; simpl; try tauto.
  destruct x as [a| | |]; try (simpl; tauto). intros Ha Hb.
  rewrite div_positive_divisor by exact Hb. simpl. apply Qdiv_nonneg; assumption.
Qed.

Lemma positive_div x d : Num.positive x -> Num.positive d -> Num.positive (x / d).
Proof.
  destruct d as [b| | |]; simpl; try tauto.
  destruct x as [a| | |]; try (simpl; tauto). intros Ha Hb.
  rewrite div_positive_divisor by exact Hb. simpl. apply Qdiv_positive; assumption.
Qed.

(** *** [Math.ceil] *)

Lemma ceil_le_mono x y : Num.le x y -> Num.le (Num.ceil x) (Num.ceil y).
Proof.
  destruct x, y; simpl; try tauto. intros H.
  rewrite <- Zle_Qle. apply Qceiling_resp_le, H.
Qed.

Lemma Qceiling_nonneg q : 0 <= q -> (0 <= Qceiling q)%Z.
Proof.
  intros H. change 0%Z with (Qceiling 0). apply Qceiling_resp_le, H.
Qed.

Lemma Qceiling_positive q : 0 < q -> (1 <= Qceiling q)%Z.
Proof.
  intros H. assert (Hc := Qle_ceiling q).
  assert (0 < inject_Z (Qceiling q)) as H0 by (eapply Qlt_le_trans; eassumption).
  rewrite <- (Zlt_Qlt 0) in H0. lia.
Qed.

Lemma nonneg_ceil x : Num.nonneg x -> Num.nonneg (Num.ceil x).
Proof.
  destruct x; simpl; try tauto. intros H.
  rewrite <- (Zle_Qle 0). apply Qceiling_nonneg, H.
Qed.

Lemma isInteger_ceil x : Num.nonneg x -> Num.isInteger (Num.ceil x).
Proof.
  destruct x; simpl; try tauto. intros _. eexists. reflexivity.
Qed.

Lemma ceil_positive x : Num.positive x -> Num.le (Fin 1) (Num.ceil x).
Proof.
  destruct x; simpl; try tauto. intros H.
  rewrite <- (Zle_Qle 1). apply Qceiling_positive, H.
Qed.

(** *** Truthiness *)

Lemma falsy_nonneg_zero x : Num.nonneg x -> Num.truthy x = false -> x =n= Fin 0.
Proof.
  destruct x; simpl; try tauto. intros _ H.
  apply negb_false_iff, Qeq_bool_iff in H. exact H.
Qed.

Lemma truthy_nonneg_positive x :
  Num.nonneg x -> Num.truthy x = true -> Num.positive x.
Proof.
  destruct x; simpl; try tauto. intros H Ht.
  apply negb_true_iff in Ht.
  destruct (Qlt_le_dec 0 q) as [Hlt|Hle]; [exact Hlt|].
  assert (q == 0) as E by (apply Qle_antisym; assumption).
  apply Qeq_bool_iff in E. congruence.
Qed.

Lemma zero_falsy x : x =n= Fin 0 -> Num.truthy x = false.
Proof.
  destruct x; simpl; try tauto. intros H.
  apply negb_false_iff, Qeq_bool_iff, H.
Qed.

End NumFacts.
Import NumFacts.

(** ** Load aggregation *)

Section LoadAggregation.

Lemma fold_forEachBody_fst appliances : forall d p,
  fst (fold_left forEachBody appliances (d, p)) =n= d + energySum appliances.
Proof.
  induction appliances as [|app rest IH]; intros d p; simpl.
  - destruct d; simpl; auto. symmetry. apply Qplus_0_r.
  - rewrite IH. fold (energyOf app). symmetry. apply add_assoc.
Qed.

Lemma fold_forEachBody_snd appliances : forall d p,
  snd (fold_left forEachBody appliances (d, p)) =n= p + powerSum appliances.
Proof.
  induction appliances as [|app rest IH]; intros d p; simpl.
  - destruct p; simpl; auto. symmetry. apply Qplus_0_r.
  - rewrite IH. fold (powerOf app). symmetry. apply add_assoc.
Qed.

Lemma dailyWhOf_energySum appliances :
  dailyWhOf appliances =n= energySum appliances.
Proof.
  unfold dailyWhOf, loadTotals. rewrite fold_forEachBody_fst. apply add_0_l.
Qed.

Lemma peakWattsOf_powerSum appliances :
  peakWattsOf appliances =n= powerSum appliances.
Proof.
  unfold peakWattsOf, loadTotals. rewrite fold_forEachBody_snd. apply add_0_l.
Qed.

Variable f : SelectedAppliance.t -> number.

Lemma sumBy_Permutation l l' :
  Permutation l l' -> sumBy f l =n= sumBy f l'.
Proof.
  induction 1 as [|x l l' _ IH|x y l|l l' l'' _ IH1 _ IH2]; simpl.
  - reflexivity.
  - rewrite IH. reflexivity.
  - rewrite !add_assoc. rewrite (add_comm (f y) (f x)). reflexivity.
  - rewrite IH1. exact IH2.
Qed.

Lemma sumBy_nonneg l :
  Forall (fun app => Num.nonneg (f app)) l -> Num.nonneg (sumBy f l).
Proof.
  induction 1 as [|app rest Happ _ IH]; simpl.
  - apply Qle_refl.
  - apply nonneg_add; assumption.
Qed.

Lemma sumBy_positive l :
  Forall (fun app => Num.nonneg (f app)) l ->
  Exists (fun app => Num.positive (f app)) l ->
  Num.positive (sumBy f l).
Proof.
  intros Hall Hex. induction Hex as [app rest Hpos|app rest _ IH]; simpl.
  - apply positive_add_l; [exact Hpos|].
    apply sumBy_nonneg. inversion Hall; assumption.
  - inversion Hall; subst. apply positive_add_r; [assumption|].
    apply IH. assumption.
Qed.

(** Replacing one entry by one with a larger [f] does not decrease the sum. *)
Lemma sumBy_le_mono l1 l2 app app' :
  Forall (fun x => Num.nonneg (f x)) (l1 ++ app :: l2) ->
  Num.le (f app) (f app') ->
  Num.le (sumBy f (l1 ++ app :: l2)) (sumBy f (l1 ++ app' :: l2)).
Proof.
  induction l1 as [|x l1 IH]; simpl; intros Hall Hle.
  - inversion Hall; subst. apply add_le_mono; [exact Hle|].
    apply num_le_refl, sumBy_nonneg. assumption.
  - inversion Hall; subst. apply add_le_mono.
    + apply num_le_refl. assumption.
    + apply IH; assumption.
Qed.

End LoadAggregation.

(** ** Catalogs that lack a kind of item *)

Lemma ItemType_eqb_eq a b : ItemType.eqb a b = true <-> a = b.
Proof. destruct a, b; simpl; split; intros H; try reflexivity; discriminate H. Qed.

Lemma firstOfType_missing k catalog :
  missing k catalog -> firstOfType k catalog = None.
Proof.
  unfold firstOfType, missing. intros H.
  destruct (find (isType k) catalog) as [i|] eqn:E; [|reflexivity].
  apply find_some in E. destruct E as [Hin Hk].
  apply ItemType_eqb_eq in Hk. exfalso. exact (H i Hin Hk).
Qed.

Lemma selectInverter_missing catalog required :
  missing ItemType.inverter catalog -> selectInverter catalog required = None.
Proof.
  intros H. unfold selectInverter.
  destruct (find (adequateInverter required) catalog) as [i|] eqn:E.
  - apply find_some in E. destruct E as [Hin Hk].
    unfold adequateInverter in Hk. apply andb_prop in Hk. destruct Hk as [Hk _].
    apply ItemType_eqb_eq in Hk. exfalso. exact (H i Hin Hk).
  - simpl. exact (firstOfType_missing H).
Qed.

(** C10.  When the catalog has no item of a kind, the reference to the chosen
    item of that kind in [system] is [undefined]; the count is still computed,
    from the default spec of the kind (5000, 4800, 550), and the price that
    multiplies it in [totalCost] is 0.  For a catalog without an installation
    item the installation cost is 150000. *)
Theorem missing_kind_reference_is_undefined
    monthlyBill fuelCost appliances catalog (k : ItemType.t) :
  missing k catalog ->
  let r := calculateSolarSystem monthlyBill fuelCost appliances catalog in
  match k with
  | ItemType.inverter =>
      r.(system).(inverter) = None
      /\ r.(system).(inverterCount)
         = Num.ceil (requiredInverterSize appliances / Fin 5000)
      /\ r.(financials).(totalCost)
         = r.(system).(inverterCount) * Fin 0
           + r.(system).(batteryCount) * priceOr r.(system).(battery) (Fin 0)
           + r.(system).(panelCount) * priceOr r.(system).(panel) (Fin 0)
           + installCostOf catalog
  | ItemType.battery =>
      r.(system).(battery) = None
      /\ r.(system).(batteryCount)
         = Num.ceil (requiredStorageWh appliances / Fin 4800)
      /\ r.(financials).(totalCost)
         = r.(system).(inverterCount) * priceOr r.(system).(inverter) (Fin 0)
           + r.(system).(batteryCount) * Fin 0
           + r.(system).(panelCount) * priceOr r.(system).(panel) (Fin 0)
           + installCostOf catalog
  | ItemType.panel =>
      r.(system).(panel) = None
      /\ r.(system).(panelCount)
         = Num.ceil (requiredPanelPower appliances / Fin 550)
      /\ r.(financials).(totalCost)
         = r.(system).(inverterCount) * priceOr r.(system).(inverter) (Fin 0)
           + r.(system).(batteryCount) * priceOr r.(system).(battery) (Fin 0)
           + r.(system).(panelCount) * Fin 0
           + installCostOf catalog
  | ItemType.installation => installCostOf catalog = Fin 150000
  end.
Proof.
  intros Hmiss r. subst r. rewrite calculateSolarSystem_eq. cbn zeta.
  destruct k; cbn [system financials inverter battery panel inverterCount
                   batteryCount panelCount totalCost].
  - rewrite (firstOfType_missing Hmiss). repeat split.
  - rewrite (selectInverter_missing _ Hmiss). repeat split.
  - rewrite (firstOfType_missing Hmiss). repeat split.
  - unfold installCostOf. rewrite (firstOfType_missing Hmiss). reflexivity.
Qed.

Lemma missing_kind_witness :
  let catalog :=
    [ CatalogItem.mk "1" "Jinko Solar Tiger Pro (550W)" ItemType.panel (Fin 85000) (Fin 550) "W";
      CatalogItem.mk "2" "Growatt Hybrid Inverter (5kVA)" ItemType.inverter (Fin 650000) (Fin 5000) "VA" ] in
  let tv := SelectedAppliance.mk "tv" "LED TV (40-55 in)" (Fin 100) (Fin 6) (Fin 1) (Fin 6) in
  let r := calculateSolarSystem (Fin 0) (Fin 0) [tv] catalog in
  missing ItemType.battery catalog
  /\ r.(system).(battery) = None
  /\ r.(system).(batteryCount) = Num.ceil (requiredStorageWh [tv] / Fin 4800)
  /\ r.(financials).(totalCost)
     = r.(system).(inverterCount) * priceOr r.(system).(inverter) (Fin 0)
       + r.(system).(batteryCount) * Fin 0
       + r.(system).(panelCount) * priceOr r.(system).(panel) (Fin 0)
       + installCostOf catalog.
Proof.
  intros catalog tv r.
  assert (Hmiss : missing ItemType.battery catalog).
  { intros i [<-|[<-|[]]]; discriminate. }
  split; [exact Hmiss|].
  exact (@missing_kind_reference_is_undefined (Fin 0) (Fin 0) [tv] catalog
           ItemType.battery Hmiss).
Defined.

(** ** Whole numbers *)

#[global] Instance isInteger_proper : Proper (Num.eq ==> iff) Num.isInteger.
Proof.
  intros [a| | |] [b| | |] H; simpl in *; try tauto.
  split; intros [z Hz]; exists z.
  - rewrite <- H. exact Hz.
  - rewrite H. exact Hz.
Qed.

#[global] Instance whole_proper : Proper (Num.eq ==> iff) whole.
Proof. intros x y H. unfold whole. rewrite H. reflexivity. Qed.

Lemma isInteger_add x y :
  Num.isInteger x -> Num.isInteger y -> Num.isInteger (x + y).
Proof.
  destruct x as [a| | |], y as [b| | |]; simpl; try tauto.
  intros [m Hm] [n Hn]. exists (m + n)%Z.
  rewrite inject_Z_plus, Hm, Hn. reflexivity.
Qed.

Lemma isInteger_mul x y :
  Num.isInteger x -> Num.isInteger y -> Num.isInteger (x * y).
Proof.
  destruct x as [a| | |], y as [b| | |]; simpl; try tauto.
  intros [m Hm] [n Hn]. exists (m * n)%Z.
  rewrite inject_Z_mult, Hm, Hn. reflexivity.
Qed.

Lemma whole_add x y : whole x -> whole y -> whole (x + y).
Proof.
  intros [Hx Hx'] [Hy Hy']. split;
    [apply isInteger_add|apply nonneg_add]; assumption.
Qed.

Lemma whole_mul x y : whole x -> whole y -> whole (x * y).
Proof.
  intros [Hx Hx'] [Hy Hy']. split;
    [apply isInteger_mul|apply nonneg_mul]; assumption.
Qed.

(** A whole number is 0 or at least 1. *)
Lemma whole_zero_or_from_1 x : whole x -> x =n= Fin 0 \/ Num.le (Fin 1) x.
Proof.
  destruct x as [q| | |]; unfold whole; simpl; try tauto.
  intros [[z Hz] Hq]. rewrite Hz in Hq |- *.
  change 0 with (inject_Z 0) in Hq. rewrite <- Zle_Qle in Hq.
  destruct (Z.eq_dec z 0) as [->|Hne].
  - left. reflexivity.
  - right. change 1 with (inject_Z 1). rewrite <- Zle_Qle. lia.
Qed.

Lemma sumBy_whole (f : SelectedAppliance.t -> number) l :
  Forall (fun app => whole (f app)) l -> whole (sumBy f l).
Proof.
  induction 1 as [|app rest Happ _ IH]; simpl.
  - split; [exists 0%Z; reflexivity|apply Qle_refl].
  - apply whole_add; assumption.
Qed.

Lemma wholeAppliance_valid app : wholeAppliance app -> validAppliance app.
Proof. intros (Hw & Hc & Hh). repeat split; [apply Hw|apply Hc|apply Hh]. Qed.

Lemma wholeItem_valid i : wholeItem i -> validItem i.
Proof. intros (Hp & Hs). split; [apply Hp|apply Hs]. Qed.

Lemma energyOf_whole app : wholeAppliance app -> whole (energyOf app).
Proof.
  intros (Hw & Hc & Hh). unfold energyOf. repeat apply whole_mul; assumption.
Qed.

Lemma powerOf_whole app : wholeAppliance app -> whole (powerOf app).
Proof.
  intros (Hw & Hc & _). unfold powerOf. apply whole_mul; assumption.
Qed.

Lemma dailyWhOf_whole appliances :
  Forall wholeAppliance appliances -> whole (dailyWhOf appliances).
Proof.
  intros H. rewrite dailyWhOf_energySum. apply sumBy_whole.
  eapply Forall_impl; [|exact H]. exact energyOf_whole.
Qed.

Lemma peakWattsOf_whole appliances :
  Forall wholeAppliance appliances -> whole (peakWattsOf appliances).
Proof.
  intros H. rewrite peakWattsOf_powerSum. apply sumBy_whole.
  eapply Forall_impl; [|exact H]. exact powerOf_whole.
Qed.

Lemma wholeLoad_valid limit appliances :
  wholeLoad limit appliances -> Forall validAppliance appliances.
Proof.
  intros (H & _). eapply Forall_impl; [|exact H]. exact wholeAppliance_valid.
Qed.

Lemma wholeCatalog_valid catalog :
  Forall wholeItem catalog -> Forall validItem catalog.
Proof. intros H. eapply Forall_impl; [|exact H]. exact wholeItem_valid. Qed.

(** The loads, and so the range of a list, do not depend on its order. *)
Lemma wholeLoad_Permutation limit l l' :
  Permutation l l' -> wholeLoad limit l -> wholeLoad limit l'.
Proof.
  intros Hperm (Hw & Hp & Hd). split; [|split].
  - exact (Permutation_Forall Hperm Hw).
  - rewrite peakWattsOf_powerSum in Hp |- *.
    unfold powerSum in *. rewrite <- (sumBy_Permutation powerOf Hperm). exact Hp.
  - rewrite dailyWhOf_energySum in Hd |- *.
    unfold energySum in *. rewrite <- (sumBy_Permutation energyOf Hperm). exact Hd.
Qed.

(** ** Load aggregation is a sum, whatever the order *)

(** C7, for whole-number entries whose totals binary64 holds exactly.  When
    wattage, count and hours of every entry are whole numbers and the peak
    load and the daily energy of the list are at most
    [Number.MAX_SAFE_INTEGER], [dailyWh] is the sum over all entries of
    wattage x count x hours, itself a whole number within that range, and
    every permutation of the list is within the range as well and gives the
    same [dailyWh]. *)
Theorem dailyWh_is_order_independent_sum b f c appliances appliances' :
  wholeLoad MAX_SAFE_INTEGER appliances ->
  Permutation appliances appliances' ->
  let r := calculateSolarSystem b f appliances c in
  let r' := calculateSolarSystem b f appliances' c in
  r.(details).(dailyWh) =n= energySum appliances
  /\ whole r.(details).(dailyWh)
  /\ Num.le r.(details).(dailyWh) MAX_SAFE_INTEGER
  /\ wholeLoad MAX_SAFE_INTEGER appliances'
  /\ r.(details).(dailyWh) =n= r'.(details).(dailyWh).
Proof.
  intros Hload Hperm r r'. subst r r'. rewrite !dailyWh_eq.
  split; [|split; [|split; [|split]]].
  - apply dailyWhOf_energySum.
  - apply dailyWhOf_whole, Hload.
  - apply Hload.
  - exact (wholeLoad_Permutation Hperm Hload).
  - rewrite !dailyWhOf_energySum. exact (sumBy_Permutation energyOf Hperm).
Qed.

Lemma dailyWh_order_witness :
  let bulb := SelectedAppliance.mk "bulb" "LED Light Bulb" (Fin 10) (Fin 8) (Fin 4) (Fin 8) in
  let fan := SelectedAppliance.mk "fan" "Ceiling Fan" (Fin 75) (Fin 12) (Fin 2) (Fin 12) in
  let tv := SelectedAppliance.mk "tv" "LED TV (40-55 in)" (Fin 100) (Fin 6) (Fin 1) (Fin 6) in
  let r := calculateSolarSystem (Fin 0) (Fin 0) [bulb; fan; tv] DEFAULT_CATALOG in
  let r' := calculateSolarSystem (Fin 0) (Fin 0) [tv; bulb; fan] DEFAULT_CATALOG in
  wholeLoad MAX_SAFE_INTEGER [bulb; fan; tv]
  /\ Permutation [bulb; fan; tv] [tv; bulb; fan]
  /\ r.(details).(dailyWh) =n= energySum [bulb; fan; tv]
  /\ whole r.(details).(dailyWh)
  /\ Num.le r.(details).(dailyWh) MAX_SAFE_INTEGER
  /\ wholeLoad MAX_SAFE_INTEGER [tv; bulb; fan]
  /\ r.(details).(dailyWh) =n= r'.(details).(dailyWh).
Proof.
  intros bulb fan tv r r'.
  assert (Hload : wholeLoad MAX_SAFE_INTEGER [bulb; fan; tv]).
  { concrete_whole. }
  assert (Hperm : Permutation [bulb; fan; tv] [tv; bulb; fan]).
  { apply Permutation_sym. apply (Permutation_cons_app [bulb; fan] []).
    simpl. apply Permutation_refl. }
  split; [exact Hload|]. split; [exact Hperm|].
  exact (@dailyWh_is_order_independent_sum (Fin 0) (Fin 0) DEFAULT_CATALOG _ _
           Hload Hperm).
Defined.

(** ** Sizes required by a validated demand *)

Section ValidDemand.

Lemma energyOf_nonneg app : validAppliance app -> Num.nonneg (energyOf app).
Proof.
  intros (Hw & Hc & Hh). unfold energyOf. repeat apply nonneg_mul; assumption.
Qed.

Lemma powerOf_nonneg app : validAppliance app -> Num.nonneg (powerOf app).
Proof.
  intros (Hw & Hc & _). unfold powerOf. apply nonneg_mul; assumption.
Qed.

Lemma energyOf_positive app : hasDemand app -> Num.positive (energyOf app).
Proof.
  intros (Hw & Hc & Hh). unfold energyOf. repeat apply positive_mul; assumption.
Qed.

Lemma powerOf_positive app : hasDemand app -> Num.positive (powerOf app).
Proof.
  intros (Hw & Hc & _). unfold powerOf. apply positive_mul; assumption.
Qed.

Variable appliances : list SelectedAppliance.t.
Hypothesis Hvalid : Forall validAppliance appliances.

Lemma dailyWhOf_nonneg : Num.nonneg (dailyWhOf appliances).
Proof.
  rewrite dailyWhOf_energySum. apply sumBy_nonneg.
  eapply Forall_impl; [|exact Hvalid]. exact energyOf_nonneg.
Qed.

Lemma peakWattsOf_nonneg : Num.nonneg (peakWattsOf appliances).
Proof.
  rewrite peakWattsOf_powerSum. apply sumBy_nonneg.
  eapply Forall_impl; [|exact Hvalid]. exact powerOf_nonneg.
Qed.

Lemma requiredInverterSize_nonneg : Num.nonneg (requiredInverterSize appliances).
Proof.
  unfold requiredInverterSize.
  repeat apply nonneg_mul; try exact peakWattsOf_nonneg; simpl; lra.
Qed.

Lemma requiredStorageWh_nonneg : Num.nonneg (requiredStorageWh appliances).
Proof.
  unfold requiredStorageWh.
  apply nonneg_mul; [exact dailyWhOf_nonneg|simpl; lra].
Qed.

Lemma requiredPanelPower_nonneg : Num.nonneg (requiredPanelPower appliances).
Proof.
  unfold requiredPanelPower. apply nonneg_mul; [|simpl; lra].
  apply nonneg_div; [exact dailyWhOf_nonneg|simpl; lra].
Qed.

Hypothesis Hdemand : Exists hasDemand appliances.

Lemma dailyWhOf_positive : Num.positive (dailyWhOf appliances).
Proof.
  rewrite dailyWhOf_energySum. apply sumBy_positive.
  - eapply Forall_impl; [|exact Hvalid]. exact energyOf_nonneg.
  - eapply Exists_impl; [|exact Hdemand]. exact energyOf_positive.
Qed.

Lemma peakWattsOf_positive : Num.positive (peakWattsOf appliances).
Proof.
  rewrite peakWattsOf_powerSum. apply sumBy_positive.
  - eapply Forall_impl; [|exact Hvalid]. exact powerOf_nonneg.
  - eapply Exists_impl; [|exact Hdemand]. exact powerOf_positive.
Qed.

Lemma requiredInverterSize_positive : Num.positive (requiredInverterSize appliances).
Proof.
  unfold requiredInverterSize.
  repeat apply positive_mul; try exact peakWattsOf_positive; simpl; lra.
Qed.

Lemma requiredStorageWh_positive : Num.positive (requiredStorageWh appliances).
Proof.
  unfold requiredStorageWh.
  apply positive_mul; [exact dailyWhOf_positive|simpl; lra].
Qed.

Lemma requiredPanelPower_positive : Num.positive (requiredPanelPower appliances).
Proof.
  unfold requiredPanelPower. apply positive_mul; [|simpl; lra].
  apply positive_div; [exact dailyWhOf_positive|simpl; lra].
Qed.

End ValidDemand.

(** ** Items chosen from a validated catalog *)

Section ValidCatalog.

Lemma selectInverter_Some_In catalog required x :
  selectInverter catalog required = Some x ->
  In x catalog /\ isType ItemType.inverter x = true.
Proof.
  unfold selectInverter.
  destruct (find (adequateInverter required) catalog) as [y|] eqn:E; simpl.
  - intros [= <-]. apply find_some in E. destruct E as [Hin Hp].
    apply andb_prop in Hp. tauto.
  - intros E'. apply find_some in E'. exact E'.
Qed.

Lemma firstOfType_Some_In k catalog x :
  firstOfType k catalog = Some x -> In x catalog /\ isType k x = true.
Proof. unfold firstOfType. apply find_some. Qed.

Lemma specOr_positive item d :
  (forall i, item = Some i -> Num.nonneg i.(CatalogItem.spec)) ->
  Num.positive d -> Num.positive (specOr item d).
Proof.
  intros Hitem Hd. unfold specOr, orDefault, optChain.
  destruct item as [i|]; [|exact Hd].
  destruct (Num.truthy (CatalogItem.spec i)) eqn:E; [|exact Hd].
  apply truthy_nonneg_positive; [|exact E]. apply Hitem. reflexivity.
Qed.

Lemma specOr_zero i d :
  i.(CatalogItem.spec) =n= Fin 0 -> specOr (Some i) d = d.
Proof.
  intros H. unfold specOr, orDefault, optChain.
  rewrite (zero_falsy _ H). reflexivity.
Qed.

Lemma priceOr_unitPrice item :
  (forall i, item = Some i -> Num.nonneg i.(CatalogItem.price)) ->
  priceOr item (Fin 0) =n= unitPrice item.
Proof.
  intros Hitem. unfold priceOr, orDefault, optChain, unitPrice.
  destruct item as [i|]; [|reflexivity].
  destruct (Num.truthy (CatalogItem.price i)) eqn:E; [reflexivity|].
  symmetry. apply falsy_nonneg_zero; [|exact E]. apply Hitem. reflexivity.
Qed.

Lemma unitPrice_nonneg item :
  (forall i, item = Some i -> Num.nonneg i.(CatalogItem.price)) ->
  Num.nonneg (unitPrice item).
Proof.
  intros Hitem. destruct item as [i|]; simpl.
  - apply Hitem. reflexivity.
  - apply Qle_refl.
Qed.

Variable catalog : list CatalogItem.t.
Hypothesis Hvalid : Forall validItem catalog.

Lemma valid_In x : In x catalog -> validItem x.
Proof. intros Hin. rewrite Forall_forall in Hvalid. exact (Hvalid x Hin). Qed.

Lemma selectInverter_valid required x :
  selectInverter catalog required = Some x -> validItem x.
Proof. intros H. apply valid_In. exact (proj1 (selectInverter_Some_In _ _ H)). Qed.

Lemma firstOfType_valid k x :
  firstOfType k catalog = Some x -> validItem x.
Proof. intros H. apply valid_In. exact (proj1 (firstOfType_Some_In _ _ H)). Qed.

Lemma installCostOf_positive : Num.positive (installCostOf catalog).
Proof.
  unfold installCostOf, priceOr, orDefault, optChain.
  destruct (firstOfType ItemType.installation catalog) as [i|] eqn:E;
    [|simpl; lra].
  destruct (Num.truthy (CatalogItem.price i)) eqn:Et; [|simpl; lra].
  apply truthy_nonneg_positive; [|exact Et].
  exact (proj1 (firstOfType_valid _ E)).
Qed.

End ValidCatalog.

(** ** Counts and cost *)

Lemma count_nonneg_integer required d :
  Num.nonneg required -> Num.positive d ->
  Num.isInteger (Num.ceil (required / d)) /\ Num.nonneg (Num.ceil (required / d)).
Proof.
  intros Hr Hd. assert (Hq := nonneg_div _ _ Hr Hd). split.
  - apply isInteger_ceil, Hq.
  - apply nonneg_ceil, Hq.
Qed.

Lemma count_at_least_one required d :
  Num.positive required -> Num.positive d ->
  Num.le (Fin 1) (Num.ceil (required / d)).
Proof. intros Hr Hd. apply ceil_positive, positive_div; assumption. Qed.

Lemma installCostOf_cases catalog :
  installCostOf catalog =
  match firstOfType ItemType.installation catalog with
  | Some i => if Num.truthy i.(CatalogItem.price)
              then i.(CatalogItem.price) else Fin 150000
  | None => Fin 150000
  end.
Proof.
  unfold installCostOf, priceOr, orDefault, optChain.
  destruct (firstOfType ItemType.installation catalog); reflexivity.
Qed.

Section ValidRequest.

Variable appliances : list SelectedAppliance.t.
Variable catalog : list CatalogItem.t.
Hypothesis Ha : Forall validAppliance appliances.
Hypothesis Hc : Forall validItem catalog.

Lemma inverterDivisor_positive :
  Num.positive (specOr (selectInverter catalog (requiredInverterSize appliances))
                       (Fin 5000)).
Proof.
  apply specOr_positive; [|simpl; lra].
  intros i Hi. exact (proj2 (selectInverter_valid Hc _ Hi)).
Qed.

Lemma batteryDivisor_positive :
  Num.positive (specOr (firstOfType ItemType.battery catalog) (Fin 4800)).
Proof.
  apply specOr_positive; [|simpl; lra].
  intros i Hi. exact (proj2 (firstOfType_valid Hc _ Hi)).
Qed.

Lemma panelDivisor_positive :
  Num.positive (specOr (firstOfType ItemType.panel catalog) (Fin 550)).
Proof.
  apply specOr_positive; [|simpl; lra].
  intros i Hi. exact (proj2 (firstOfType_valid Hc _ Hi)).
Qed.

Lemma totalCost_unitPrice b f :
  let r := calculateSolarSystem b f appliances catalog in
  r.(financials).(totalCost)
  =n= r.(system).(inverterCount) * unitPrice r.(system).(inverter)
      + r.(system).(batteryCount) * unitPrice r.(system).(battery)
      + r.(system).(panelCount) * unitPrice r.(system).(panel)
      + installCostOf catalog.
Proof.
  cbn zeta. rewrite totalCost_eq, inverter_eq, battery_eq, panel_eq.
  rewrite !priceOr_unitPrice; [reflexivity| | |].
  - intros i Hi. exact (proj1 (firstOfType_valid Hc _ Hi)).
  - intros i Hi. exact (proj1 (firstOfType_valid Hc _ Hi)).
  - intros i Hi. exact (proj1 (selectInverter_valid Hc _ Hi)).
Qed.

End ValidRequest.

Lemma unitPrice_whole catalog item :
  Forall wholeItem catalog ->
  (forall i, item = Some i -> In i catalog) ->
  whole (unitPrice item).
Proof.
  intros Hc Hin. destruct item as [i|]; simpl.
  - exact (proj1 (proj1 (Forall_forall _ _) Hc i (Hin i eq_refl))).
  - split; [exists 0%Z; reflexivity|apply Qle_refl].
Qed.

Lemma installCostOf_whole catalog :
  Forall wholeItem catalog -> whole (installCostOf catalog).
Proof.
  intros Hc. rewrite installCostOf_cases.
  assert (H150 : whole (Fin 150000)).
  { split; [exists 150000%Z; reflexivity|discriminate]. }
  destruct (firstOfType ItemType.installation catalog) as [i|] eqn:E; [|exact H150].
  destruct (Num.truthy (CatalogItem.price i)); [|exact H150].
  apply firstOfType_Some_In in E.
  exact (proj1 (proj1 (Forall_forall _ _) Hc i (proj1 E))).
Qed.

(** C4, for whole-number requests.  When wattage, count and hours of every
    entry and the price and spec of every catalog item are whole numbers,
    the peak load and the daily energy are at most 10^12 and [totalCost] is
    at most [Number.MAX_SAFE_INTEGER]: the three counts are whole numbers;
    as soon as one entry has positive wattage, count and hours they are all
    at least 1; and [totalCost] is a whole number, exactly
    inverterCount x inverterPrice + batteryCount x batteryPrice
    + panelCount x panelPrice + installCost.  The price of a missing kind is
    0, and [installCost] is [price || 150000] on the first installation
    item: its price unless that is 0, and 150000 when it is 0 or when there
    is no such item. *)
Theorem counts_are_integers_and_cost_is_exact_sum b f appliances catalog :
  wholeLoad LOAD_LIMIT appliances ->
  Forall wholeItem catalog ->
  let r := calculateSolarSystem b f appliances catalog in
  let s := r.(system) in
  Num.le r.(financials).(totalCost) MAX_SAFE_INTEGER ->
  (whole s.(inverterCount) /\ whole s.(batteryCount) /\ whole s.(panelCount))
  /\ (Exists hasDemand appliances ->
      Num.le (Fin 1) s.(inverterCount)
      /\ Num.le (Fin 1) s.(batteryCount)
      /\ Num.le (Fin 1) s.(panelCount))
  /\ installCostOf catalog
     = match firstOfType ItemType.installation catalog with
       | Some i => if Num.truthy i.(CatalogItem.price)
                   then i.(CatalogItem.price) else Fin 150000
       | None => Fin 150000
       end
  /\ whole r.(financials).(totalCost)
  /\ r.(financials).(totalCost)
     =n= s.(inverterCount) * unitPrice s.(inverter)
         + s.(batteryCount) * unitPrice s.(battery)
         + s.(panelCount) * unitPrice s.(panel)
         + installCostOf catalog.
Proof.
  intros Hload Hitems r s Hsafe. subst s.
  assert (Ha := wholeLoad_valid Hload).
  assert (Hc := wholeCatalog_valid Hitems).
  assert (Hdi := inverterDivisor_positive appliances Hc).
  assert (Hdb := batteryDivisor_positive Hc).
  assert (Hdp := panelDivisor_positive Hc).
  assert (Hcounts : whole r.(system).(inverterCount)
                    /\ whole r.(system).(batteryCount)
                    /\ whole r.(system).(panelCount)).
  { subst r. rewrite inverterCount_eq, batteryCount_eq, panelCount_eq.
    unfold whole. repeat split; apply count_nonneg_integer;
      first [exact (requiredInverterSize_nonneg Ha)
            |exact (requiredStorageWh_nonneg Ha)
            |exact (requiredPanelPower_nonneg Ha)
            |assumption]. }
  assert (Hsum := @totalCost_unitPrice appliances catalog Hc b f).
  cbn zeta in Hsum. fold r in Hsum.
  split; [exact Hcounts|]. split; [|split; [|split]].
  - intros Hex. subst r.
    rewrite inverterCount_eq, batteryCount_eq, panelCount_eq.
    repeat split; apply count_at_least_one; try assumption.
    + exact (requiredInverterSize_positive Ha Hex).
    + exact (requiredStorageWh_positive Ha Hex).
    + exact (requiredPanelPower_positive Ha Hex).
  - apply installCostOf_cases.
  - rewrite Hsum. destruct Hcounts as (Hi & Hb & Hp).
    repeat apply whole_add; try apply whole_mul; try assumption;
      try exact (installCostOf_whole Hitems);
      apply (unitPrice_whole Hitems); intros i Hx; subst r;
      rewrite ?inverter_eq, ?battery_eq, ?panel_eq in Hx;
      first [exact (proj1 (selectInverter_Some_In _ _ Hx))
            |exact (proj1 (firstOfType_Some_In _ _ Hx))].
  - exact Hsum.
Qed.

Lemma counts_and_cost_witness :
  let tv := SelectedAppliance.mk "tv" "LED TV (40-55 in)" (Fin 100) (Fin 6) (Fin 1) (Fin 6) in
  let r := calculateSolarSystem (Fin 50000) (Fin 30000) [tv] DEFAULT_CATALOG in
  let s := r.(system) in
  wholeLoad LOAD_LIMIT [tv]
  /\ Forall wholeItem DEFAULT_CATALOG
  /\ Num.le r.(financials).(totalCost) MAX_SAFE_INTEGER
  /\ (whole s.(inverterCount) /\ whole s.(batteryCount) /\ whole s.(panelCount))
  /\ (Exists hasDemand [tv] ->
      Num.le (Fin 1) s.(inverterCount)
      /\ Num.le (Fin 1) s.(batteryCount)
      /\ Num.le (Fin 1) s.(panelCount))
  /\ installCostOf DEFAULT_CATALOG
     = match firstOfType ItemType.installation DEFAULT_CATALOG with
       | Some i => if Num.truthy i.(CatalogItem.price)
                   then i.(CatalogItem.price) else Fin 150000
       | None => Fin 150000
       end
  /\ whole r.(financials).(totalCost)
  /\ r.(financials).(totalCost)
     =n= s.(inverterCount) * unitPrice s.(inverter)
         + s.(batteryCount) * unitPrice s.(battery)
         + s.(panelCount) * unitPrice s.(panel)
         + installCostOf DEFAULT_CATALOG.
Proof.
  intros tv r s.
  assert (Ha : wholeLoad LOAD_LIMIT [tv]).
  { concrete_whole. }
  assert (Hc : Forall wholeItem DEFAULT_CATALOG).
  { concrete_whole. }
  assert (Hsafe : Num.le r.(financials).(totalCost) MAX_SAFE_INTEGER).
  { vm_compute. discriminate. }
  split; [exact Ha|]. split; [exact Hc|]. split; [exact Hsafe|].
  exact (@counts_are_integers_and_cost_is_exact_sum
           (Fin 50000) (Fin 30000) [tv] DEFAULT_CATALOG Ha Hc Hsafe).
Defined.

(** ** Headroom of the chosen inverter *)

Lemma find_adequate_exists catalog required :
  (exists i, In i catalog /\ adequateInverter required i = true) ->
  exists x, find (adequateInverter required) catalog = Some x.
Proof.
  intros (i & Hin & Hi).
  destruct (find (adequateInverter required) catalog) as [x|] eqn:E.
  - exists x. reflexivity.
  - rewrite (find_none _ _ E i Hin) in Hi. discriminate Hi.
Qed.

Lemma ceil_times_divisor_covers q s :
  0 <= q -> 0 < s -> Qle_bool q (inject_Z (Qceiling (q / s)) * s)%Q = true.
Proof.
  intros Hq Hs. apply Qle_bool_iff.
  apply Qle_trans with ((q / s) * s)%Q.
  - assert (q / s * s == q)%Q as ->; [|apply Qle_refl].
    field. intros E. rewrite E in Hs. exact (Qlt_irrefl 0 Hs).
  - apply Qmult_le_compat_r; [apply Qle_ceiling|apply Qlt_le_weak, Hs].
Qed.

(** With whole-number entries the peak load is 0 W or at least 1 W, and the
    required inverter size 0 or at least 0.8: its quotient by a spec that
    binary64 holds is then far above the smallest positive binary64
    number. *)
Lemma requiredInverterSize_zero_or_large appliances :
  Forall wholeAppliance appliances ->
  requiredInverterSize appliances =n= Fin 0
  \/ Num.le (Fin 0.8) (requiredInverterSize appliances).
Proof.
  intros Hw. assert (Hp := peakWattsOf_whole Hw).
  unfold requiredInverterSize.
  destruct (whole_zero_or_from_1 Hp) as [H0|H1];
    destruct (peakWattsOf appliances) as [q| | |]; simpl in *; try tauto.
  - left. rewrite H0. reflexivity.
  - right. lra.
Qed.

(** C5, for whole-number requests.  When wattage, count and hours of every
    entry and the price and spec of every catalog item are whole numbers,
    the peak load and the daily energy are at
    most 10^12, and some inverter item of the catalog has
    [spec >= requiredInverterSize]: [requiredInverterSize] is 0 or at least
    0.8, the engine chooses the first such item, and [inverterCount x spec]
    of the chosen item is at least [requiredInverterSize]. *)
Theorem inverter_headroom b f appliances catalog :
  wholeLoad LOAD_LIMIT appliances ->
  Forall wholeItem catalog ->
  (exists i, In i catalog
             /\ adequateInverter (requiredInverterSize appliances) i = true) ->
  let r := calculateSolarSystem b f appliances catalog in
  (requiredInverterSize appliances =n= Fin 0
   \/ Num.le (Fin 0.8) (requiredInverterSize appliances))
  /\ exists x,
       r.(system).(inverter) = Some x
       /\ find (adequateInverter (requiredInverterSize appliances)) catalog = Some x
       /\ adequateInverter (requiredInverterSize appliances) x = true
       /\ (r.(system).(inverterCount) * x.(CatalogItem.spec)
           >=? requiredInverterSize appliances) = true
       /\ (r.(system).(inverterCount) * specOr (Some x) (Fin 5000)
           >=? requiredInverterSize appliances) = true.
Proof.
  intros Hload Hitems Hex r. subst r.
  assert (Ha := wholeLoad_valid Hload).
  assert (Hc := wholeCatalog_valid Hitems).
  split; [exact (requiredInverterSize_zero_or_large (proj1 Hload))|].
  rewrite inverterCount_eq, inverter_eq.
  destruct (find_adequate_exists _ _ Hex) as (x & Hx).
  assert (Hsel : selectInverter catalog (requiredInverterSize appliances) = Some x).
  { unfold selectInverter. rewrite Hx. reflexivity. }
  rewrite Hsel. exists x. split; [reflexivity|]. split; [exact Hx|].
  assert (Hadq := proj2 (find_some _ _ Hx)). split; [exact Hadq|].
  apply andb_prop in Hadq. destruct Hadq as [_ Hge].
  assert (Hreq := requiredInverterSize_nonneg Ha).
  assert (Hspec := proj2 (selectInverter_valid Hc _ Hsel)).
  unfold specOr, orDefault, optChain.
  destruct (requiredInverterSize appliances) as [q| | |]; simpl in Hreq; try tauto.
  destruct (CatalogItem.spec x) as [s| | |] eqn:Es; simpl in Hspec; try tauto.
  simpl in Hge. apply Qle_bool_iff in Hge.
  destruct (Num.truthy (Fin s)) eqn:Et.
  - assert (0 < s) as Hs by exact (truthy_nonneg_positive (Fin s) Hspec Et).
    rewrite div_positive_divisor by exact Hs. simpl.
    split; apply ceil_times_divisor_covers; assumption.
  - assert (s == 0) as Hs by exact (falsy_nonneg_zero (Fin s) Hspec Et).
    rewrite div_positive_divisor by lra. simpl. split.
    + apply Qle_bool_iff. rewrite Hs, Qmult_0_r. lra.
    + apply ceil_times_divisor_covers; [assumption|lra].
Qed.

Lemma inverter_headroom_witness :
  let tv := SelectedAppliance.mk "tv" "LED TV (40-55 in)" (Fin 100) (Fin 6) (Fin 1) (Fin 6) in
  let r := calculateSolarSystem (Fin 50000) (Fin 30000) [tv] DEFAULT_CATALOG in
  wholeLoad LOAD_LIMIT [tv]
  /\ Forall wholeItem DEFAULT_CATALOG
  /\ (exists i, In i DEFAULT_CATALOG
                /\ adequateInverter (requiredInverterSize [tv]) i = true)
  /\ (requiredInverterSize [tv] =n= Fin 0
      \/ Num.le (Fin 0.8) (requiredInverterSize [tv]))
  /\ exists x,
       r.(system).(inverter) = Some x
       /\ find (adequateInverter (requiredInverterSize [tv])) DEFAULT_CATALOG = Some x
       /\ adequateInverter (requiredInverterSize [tv]) x = true
       /\ (r.(system).(inverterCount) * x.(CatalogItem.spec)
           >=? requiredInverterSize [tv]) = true
       /\ (r.(system).(inverterCount) * specOr (Some x) (Fin 5000)
           >=? requiredInverterSize [tv]) = true.
Proof.
  intros tv r.
  assert (Ha : wholeLoad LOAD_LIMIT [tv]).
  { concrete_whole. }
  assert (Hc : Forall wholeItem DEFAULT_CATALOG).
  { concrete_whole. }
  assert (Hex : exists i, In i DEFAULT_CATALOG
                /\ adequateInverter (requiredInverterSize [tv]) i = true).
  { eexists. split; [right; left; reflexivity|reflexivity]. }
  split; [exact Ha|]. split; [exact Hc|]. split; [exact Hex|].
  exact (@inverter_headroom (Fin 50000) (Fin 30000) [tv] DEFAULT_CATALOG Ha Hc Hex).
Defined.

(** ** The default spec stands in for a zero spec *)

Lemma divisor_facts catalog item d :
  specsNonneg catalog ->
  (forall x, item = Some x -> In x catalog) ->
  Num.positive d ->
  Num.positive (specOr item d)
  /\ (forall x, item = Some x -> x.(CatalogItem.spec) =n= Fin 0 -> specOr item d = d).
Proof.
  intros Hc Hin Hd. split.
  - apply specOr_positive; [|exact Hd]. intros i Hi. apply Hc, Hin, Hi.
  - intros x -> Hx. apply specOr_zero, Hx.
Qed.

(** C9.  When no spec of the catalog is negative, each count is the ceiling of
    a division whose divisor is strictly positive, and a chosen inverter,
    battery or panel item whose spec is zero has its spec replaced by the
    default (5000, 4800, 550) in that division, although the item is present. *)
Theorem zero_spec_falls_back_to_default b f appliances catalog :
  specsNonneg catalog ->
  let r := calculateSolarSystem b f appliances catalog in
  let s := r.(system) in
  (s.(inverterCount)
     = Num.ceil (requiredInverterSize appliances / specOr s.(inverter) (Fin 5000))
   /\ Num.positive (specOr s.(inverter) (Fin 5000))
   /\ (forall x, s.(inverter) = Some x -> x.(CatalogItem.spec) =n= Fin 0 ->
       specOr s.(inverter) (Fin 5000) = Fin 5000))
  /\ (s.(batteryCount)
        = Num.ceil (requiredStorageWh appliances / specOr s.(battery) (Fin 4800))
      /\ Num.positive (specOr s.(battery) (Fin 4800))
      /\ (forall x, s.(battery) = Some x -> x.(CatalogItem.spec) =n= Fin 0 ->
          specOr s.(battery) (Fin 4800) = Fin 4800))
  /\ (s.(panelCount)
        = Num.ceil (requiredPanelPower appliances / specOr s.(panel) (Fin 550))
      /\ Num.positive (specOr s.(panel) (Fin 550))
      /\ (forall x, s.(panel) = Some x -> x.(CatalogItem.spec) =n= Fin 0 ->
          specOr s.(panel) (Fin 550) = Fin 550)).
Proof.
  intros Hc r s. subst s r.
  rewrite inverterCount_eq, batteryCount_eq, panelCount_eq,
    inverter_eq, battery_eq, panel_eq.
  repeat split; try reflexivity;
    try (apply (divisor_facts _ Hc); [|simpl; lra]);
    try (intros x Hx; first [exact (proj1 (selectInverter_Some_In _ _ Hx))
                            |exact (proj1 (firstOfType_Some_In _ _ Hx))]).
Qed.

Lemma zero_spec_witness :
  let catalog :=
    [ CatalogItem.mk "1" "Jinko Solar Tiger Pro (550W)" ItemType.panel (Fin 85000) (Fin 550) "W";
      CatalogItem.mk "2" "Growatt Hybrid Inverter (5kVA)" ItemType.inverter (Fin 650000) (Fin 5000) "VA";
      CatalogItem.mk "3" "Felicity Lithium Battery (5kWh)" ItemType.battery (Fin 1200000) (Fin 0) "Wh" ] in
  let tv := SelectedAppliance.mk "tv" "LED TV (40-55 in)" (Fin 100) (Fin 6) (Fin 1) (Fin 6) in
  let r := calculateSolarSystem (Fin 0) (Fin 0) [tv] catalog in
  let s := r.(system) in
  specsNonneg catalog
  /\ (s.(inverterCount)
        = Num.ceil (requiredInverterSize [tv] / specOr s.(inverter) (Fin 5000))
      /\ Num.positive (specOr s.(inverter) (Fin 5000))
      /\ (forall x, s.(inverter) = Some x -> x.(CatalogItem.spec) =n= Fin 0 ->
          specOr s.(inverter) (Fin 5000) = Fin 5000))
  /\ (s.(batteryCount)
        = Num.ceil (requiredStorageWh [tv] / specOr s.(battery) (Fin 4800))
      /\ Num.positive (specOr s.(battery) (Fin 4800))
      /\ (forall x, s.(battery) = Some x -> x.(CatalogItem.spec) =n= Fin 0 ->
          specOr s.(battery) (Fin 4800) = Fin 4800))
  /\ (s.(panelCount)
        = Num.ceil (requiredPanelPower [tv] / specOr s.(panel) (Fin 550))
      /\ Num.positive (specOr s.(panel) (Fin 550))
      /\ (forall x, s.(panel) = Some x -> x.(CatalogItem.spec) =n= Fin 0 ->
          specOr s.(panel) (Fin 550) = Fin 550)).
Proof.
  intros catalog tv r s.
  assert (Hc : specsNonneg catalog).
  { intros i [<-|[<-|[<-|[]]]]; simpl; discriminate. }
  split; [exact Hc|].
  exact (@zero_spec_falls_back_to_default (Fin 0) (Fin 0) [tv] catalog Hc).
Defined.

(** ** Payback years when nothing is saved *)

Lemma div_zero x s : s == 0 -> x / Fin s = overZero x.
Proof.
  intros Hs. destruct x as [q| | |]; simpl; try reflexivity.
  - apply Qeq_bool_iff in Hs. rewrite Hs. reflexivity.
  - assert (Qle_bool 0 s = true) as ->; [|reflexivity].
    apply Qle_bool_iff. rewrite Hs. apply Qle_refl.
  - assert (Qle_bool 0 s = true) as ->; [|reflexivity].
    apply Qle_bool_iff. rewrite Hs. apply Qle_refl.
Qed.

Lemma totalAnnualSavingsOf_zero b f :
  b =n= Fin 0 -> f =n= Fin 0 ->
  exists s, totalAnnualSavingsOf b f = Fin s /\ s == 0.
Proof.
  destruct b as [qb| | |], f as [qf| | |]; simpl; try tauto.
  intros Hb Hf. eexists. split; [reflexivity|]. rewrite Hb, Hf. reflexivity.
Qed.

Lemma zero_savings_zero_inputs b f :
  Num.nonneg b -> Num.nonneg f -> totalAnnualSavingsOf b f =n= Fin 0 ->
  b =n= Fin 0 /\ f =n= Fin 0.
Proof.
  destruct b as [qb| | |], f as [qf| | |]; simpl; try tauto.
  intros Hb Hf H. split; lra.
Qed.

Lemma over_zero_not_finite x : isFinite (overZero x) = false.
Proof.
  destruct x as [q| | |]; simpl; try reflexivity.
  destruct (q ?= 0); reflexivity.
Qed.

(** C1, as the code has it.  For a bill and a fuel cost that are not
    negative, [totalAnnualSavings] is zero only when both are zero, and then
    [roiYears] is the plain quotient [totalCost / totalAnnualSavings], a
    division by zero with no guard: its value is not a finite number (it is
    an infinity or [NaN]), where a guarded division gives a sentinel that is
    not a number at all. *)
Theorem zero_savings_roi_is_plain_quotient b f appliances catalog :
  let r := calculateSolarSystem b f appliances catalog in
  Num.nonneg b -> Num.nonneg f ->
  r.(financials).(totalAnnualSavings) =n= Fin 0 ->
  (b =n= Fin 0 /\ f =n= Fin 0)
  /\ r.(financials).(roiYears)
     = r.(financials).(totalCost) / r.(financials).(totalAnnualSavings)
  /\ isFinite r.(financials).(roiYears) = false
  /\ guardedPayback r.(financials).(totalCost) r.(financials).(totalAnnualSavings)
     = Unbounded
  /\ Years r.(financials).(roiYears)
     <> guardedPayback r.(financials).(totalCost) r.(financials).(totalAnnualSavings).
Proof.
  intros r Hb Hf Hzero. subst r.
  split.
  { rewrite totalAnnualSavings_eq in Hzero.
    exact (zero_savings_zero_inputs b f Hb Hf Hzero). }
  destruct ((calculateSolarSystem b f appliances catalog).(financials)
              .(totalAnnualSavings)) as [s| | |] eqn:Hs;
    simpl in Hzero; try contradiction.
  assert (Hguard : guardedPayback
                     (calculateSolarSystem b f appliances catalog).(financials).(totalCost)
                     (Fin s) = Unbounded).
  { simpl. apply Qeq_bool_iff in Hzero. rewrite Hzero. reflexivity. }
  split; [|split; [|split]].
  - rewrite roiYears_eq, Hs. reflexivity.
  - rewrite roiYears_eq, Hs, (div_zero _ Hzero). apply over_zero_not_finite.
  - exact Hguard.
  - rewrite Hguard. discriminate.
Qed.

Lemma zero_savings_roi_witness :
  let tv := SelectedAppliance.mk "tv" "LED TV (40-55 in)" (Fin 100) (Fin 6) (Fin 1) (Fin 6) in
  let r := calculateSolarSystem (Fin 0) (Fin 0) [tv] DEFAULT_CATALOG in
  Num.nonneg (Fin 0)
  /\ r.(financials).(totalAnnualSavings) =n= Fin 0
  /\ (Fin 0 =n= Fin 0 /\ Fin 0 =n= Fin 0)
  /\ r.(financials).(roiYears)
     = r.(financials).(totalCost) / r.(financials).(totalAnnualSavings)
  /\ isFinite r.(financials).(roiYears) = false
  /\ guardedPayback r.(financials).(totalCost) r.(financials).(totalAnnualSavings)
     = Unbounded
  /\ Years r.(financials).(roiYears)
     <> guardedPayback r.(financials).(totalCost) r.(financials).(totalAnnualSavings).
Proof.
  intros tv r.
  assert (Hn : Num.nonneg (Fin 0)) by (simpl; discriminate).
  assert (H0 : r.(financials).(totalAnnualSavings) =n= Fin 0) by reflexivity.
  split; [exact Hn|]. split; [exact H0|].
  exact (@zero_savings_roi_is_plain_quotient (Fin 0) (Fin 0) [tv] DEFAULT_CATALOG
           Hn Hn H0).
Defined.

(** A zero bill and a zero fuel cost give zero savings. *)
Lemma zero_bill_and_fuel_zero_savings b f appliances catalog :
  b =n= Fin 0 -> f =n= Fin 0 ->
  (calculateSolarSystem b f appliances catalog).(financials).(totalAnnualSavings)
  =n= Fin 0.
Proof.
  intros Hb Hf. rewrite totalAnnualSavings_eq.
  destruct (totalAnnualSavingsOf_zero b f Hb Hf) as (s & -> & Hs). exact Hs.
Qed.

(** C1, as the specification states it, fails: with no appliance, a zero bill
    and a zero fuel cost on the default catalog, savings are zero and the
    engine returns [roiYears = 150000 / 0 = +Infinity], the value of the
    unguarded division, where the guarded division gives the sentinel. *)
Lemma zero_savings_roi_not_guarded :
  let r := calculateSolarSystem (Fin 0) (Fin 0) [] DEFAULT_CATALOG in
  r.(financials).(totalAnnualSavings) =n= Fin 0
  /\ r.(financials).(totalCost) = Fin 150000
  /\ r.(financials).(roiYears) = Fin 150000 / Fin 0
  /\ r.(financials).(roiYears) = PInf
  /\ guardedPayback r.(financials).(totalCost) r.(financials).(totalAnnualSavings)
     = Unbounded
  /\ Years r.(financials).(roiYears)
     <> guardedPayback r.(financials).(totalCost) r.(financials).(totalAnnualSavings).
Proof.
  cbn zeta. repeat split; try reflexivity. vm_compute. discriminate.
Qed.

(** ** Scenario: one 5000 VA inverter, 6000 VA required *)

Lemma find_filter_isType k (q : CatalogItem.t -> bool) catalog :
  find (fun i => isType k i && q i) catalog = find q (filter (isType k) catalog).
Proof.
  induction catalog as [|i rest IH]; simpl; [reflexivity|].
  destruct (isType k i); simpl.
  - destruct (q i); [reflexivity|exact IH].
  - exact IH.
Qed.

Lemma find_isType_filter k catalog :
  find (isType k) catalog = hd_error (filter (isType k) catalog).
Proof.
  induction catalog as [|i rest IH]; simpl; [reflexivity|].
  destruct (isType k i); simpl; [reflexivity|exact IH].
Qed.

Lemma geb_proper_false x x' y y' :
  x =n= x' -> y =n= y' -> (x' >=? y') = false -> (x >=? y) = false.
Proof.
  destruct x, x'; simpl; try tauto; destruct y, y'; simpl; try tauto.
  intros Hx Hy H. destruct (Qle_bool q1 q) eqn:E; [|reflexivity].
  apply Qle_bool_iff in E. rewrite Hx, Hy in E. apply Qle_bool_iff in E.
  congruence.
Qed.



(** ** Which inverter is chosen *)

Lemma find_firstMatch {A : Type} (p : A -> bool) l x :
  find p l = Some x -> firstMatch p l x.
Proof.
  induction l as [|a l IH]; simpl; [discriminate|].
  destruct (p a) eqn:E.
  - intros [= <-]. exists [], l. repeat split; [exact E|constructor].
  - intros H. destruct (IH H) as (l1 & l2 & -> & Hx & Hl1).
    exists (a :: l1), l2. repeat split; [exact Hx|].
    constructor; assumption.
Qed.

Lemma find_None_Forall {A : Type} (p : A -> bool) l :
  find p l = None -> Forall (fun y => p y = false) l.
Proof. intros H. apply Forall_forall. exact (find_none p l H). Qed.

Lemma find_isType_None_missing k catalog :
  find (isType k) catalog = None -> missing k catalog.
Proof.
  intros H i Hin Hk. assert (Hf := find_none _ _ H i Hin).
  unfold isType in Hf. rewrite Hk in Hf. destruct k; discriminate Hf.
Qed.

(** C2, as the code has it.  The chosen inverter is the first item, in catalog
    order, that is an inverter with [spec >= requiredInverterSize]; when no
    item passes that test it is the first inverter item of the catalog; when
    the catalog has no inverter item the reference is [undefined], the count
    is computed with spec 5000 and the price that multiplies it is 0. *)
Theorem inverter_is_first_match_in_catalog_order b f appliances catalog :
  let r := calculateSolarSystem b f appliances catalog in
  let required := requiredInverterSize appliances in
  (exists x,
     r.(system).(inverter) = Some x
     /\ firstMatch (adequateInverter required) catalog x
     /\ r.(system).(inverterCount) = Num.ceil (required / specOr (Some x) (Fin 5000)))
  \/ (exists x,
        r.(system).(inverter) = Some x
        /\ Forall (fun y => adequateInverter required y = false) catalog
        /\ firstMatch (isType ItemType.inverter) catalog x
        /\ r.(system).(inverterCount)
           = Num.ceil (required / specOr (Some x) (Fin 5000)))
  \/ (r.(system).(inverter) = None
      /\ missing ItemType.inverter catalog
      /\ r.(system).(inverterCount) = Num.ceil (required / Fin 5000)
      /\ priceOr r.(system).(inverter) (Fin 0) = Fin 0).
Proof.
  intros r required. subst r required.
  rewrite inverterCount_eq, inverter_eq. unfold selectInverter.
  destruct (find (adequateInverter (requiredInverterSize appliances)) catalog)
    as [x|] eqn:E1.
  - left. exists x. simpl. repeat split. exact (find_firstMatch _ _ E1).
  - simpl. destruct (find (isType ItemType.inverter) catalog) as [x|] eqn:E2.
    + right; left. exists x. repeat split.
      * exact (find_None_Forall _ _ E1).
      * exact (find_firstMatch _ _ E2).
    + right; right. repeat split. exact (find_isType_None_missing _ E2).
Qed.

(** C2, as the specification states it, fails: with a 10 kVA inverter listed
    before a 5 kVA one and 84 VA required, both are adequate, the engine
    chooses the 10 kVA item, and the adequate item of lowest spec is the
    5 kVA one. *)
Lemma chosen_inverter_not_lowest_spec :
  let deye := CatalogItem.mk "5" "Deye Hybrid Inverter (10kVA)"
                ItemType.inverter (Fin 1400000) (Fin 10000) "VA" in
  let growatt := CatalogItem.mk "2" "Growatt Hybrid Inverter (5kVA)"
                   ItemType.inverter (Fin 650000) (Fin 5000) "VA" in
  let tv := SelectedAppliance.mk "tv" "LED TV (40-55 in)" (Fin 100) (Fin 6) (Fin 1) (Fin 6) in
  let catalog := [deye; growatt] in
  let r := calculateSolarSystem (Fin 0) (Fin 0) [tv] catalog in
  requiredInverterSize [tv] =n= Fin 84
  /\ r.(system).(inverter) = Some deye
  /\ lowestAdequate catalog (requiredInverterSize [tv]) growatt
  /\ ~ lowestAdequate catalog (requiredInverterSize [tv]) deye.
Proof.
  intros deye growatt tv catalog r. split; [reflexivity|]. split; [reflexivity|].
  split.
  - split; [right; left; reflexivity|]. split; [reflexivity|].
    intros y [<-|[<-|[]]] _; reflexivity.
  - intros (_ & _ & H).
    specialize (H growatt (or_intror (or_introl eq_refl)) eq_refl).
    discriminate H.
Qed.

(** ** More demand *)

Lemma withUsage_valid app count hours :
  validAppliance app -> Num.nonneg count -> Num.nonneg hours ->
  validAppliance (withUsage app count hours).
Proof. intros (Hw & _ & _) Hc Hh. repeat split; assumption. Qed.

Lemma mul_const_mono x y q :
  0 <= q -> Num.nonneg x -> Num.le x y -> Num.le (x * Fin q) (y * Fin q).
Proof.
  intros Hq Hx Hxy. apply mul_le_mono; try assumption. apply num_le_refl, Hq.
Qed.

Section MoreDemand.

Variables l1 l2 : list SelectedAppliance.t.
Variable app : SelectedAppliance.t.
Variables count' hours' : number.

Let before := l1 ++ app :: l2.
Let after := l1 ++ withUsage app count' hours' :: l2.

Hypothesis Hvalid : Forall validAppliance before.
Hypothesis Hcount : Num.le app.(SelectedAppliance.count) count'.
Hypothesis Hhours : Num.le app.(SelectedAppliance.hours) hours'.

Lemma app_valid : validAppliance app.
Proof using Hvalid Hcount Hhours.
  assert (H := Hvalid). unfold before in H. rewrite Forall_forall in H.
  apply H, in_elt.
Qed.

Lemma after_valid : Forall validAppliance after.
Proof using Hvalid Hcount Hhours.
  assert (H := Hvalid). unfold before in H. unfold after.
  apply Forall_app in H.
  destruct H as [H1 H2]. apply Forall_app. split; [exact H1|].
  inversion H2; subst. constructor; [|assumption].
  destruct app_valid as (_ & Hc & Hh).
  apply withUsage_valid; [exact app_valid| |].
  - exact (nonneg_le_trans _ _ Hc Hcount).
  - exact (nonneg_le_trans _ _ Hh Hhours).
Qed.

Lemma powerOf_withUsage_le :
  Num.le (powerOf app) (powerOf (withUsage app count' hours')).
Proof using Hvalid Hcount Hhours.
  destruct app_valid as (Hw & Hc & _). unfold powerOf. simpl.
  apply mul_le_mono; try assumption. apply num_le_refl, Hw.
Qed.

Lemma energyOf_withUsage_le :
  Num.le (energyOf app) (energyOf (withUsage app count' hours')).
Proof using Hvalid Hcount Hhours.
  destruct app_valid as (Hw & Hc & Hh). unfold energyOf. simpl.
  apply mul_le_mono; try assumption.
  - apply nonneg_mul; assumption.
  - exact powerOf_withUsage_le.
Qed.

Lemma dailyWhOf_mono : Num.le (dailyWhOf before) (dailyWhOf after).
Proof using Hvalid Hcount Hhours.
  rewrite !dailyWhOf_energySum. apply sumBy_le_mono.
  - eapply Forall_impl; [|exact Hvalid]. exact energyOf_nonneg.
  - exact energyOf_withUsage_le.
Qed.

Lemma peakWattsOf_mono : Num.le (peakWattsOf before) (peakWattsOf after).
Proof using Hvalid Hcount Hhours.
  rewrite !peakWattsOf_powerSum. apply sumBy_le_mono.
  - eapply Forall_impl; [|exact Hvalid]. exact powerOf_nonneg.
  - exact powerOf_withUsage_le.
Qed.

Lemma requiredInverterSize_mono :
  Num.le (requiredInverterSize before) (requiredInverterSize after).
Proof using Hvalid Hcount Hhours.
  unfold requiredInverterSize. apply mul_const_mono; [lra| |].
  - apply nonneg_mul; [exact (peakWattsOf_nonneg Hvalid)|simpl; lra].
  - apply mul_const_mono; [lra|exact (peakWattsOf_nonneg Hvalid)|].
    exact peakWattsOf_mono.
Qed.

Lemma requiredStorageWh_mono :
  Num.le (requiredStorageWh before) (requiredStorageWh after).
Proof using Hvalid Hcount Hhours.
  unfold requiredStorageWh.
  apply mul_const_mono; [lra|exact (dailyWhOf_nonneg Hvalid)|exact dailyWhOf_mono].
Qed.

Lemma requiredPanelPower_mono :
  Num.le (requiredPanelPower before) (requiredPanelPower after).
Proof using Hvalid Hcount Hhours.
  unfold requiredPanelPower. apply mul_const_mono; [lra| |].
  - apply nonneg_div; [exact (dailyWhOf_nonneg Hvalid)|simpl; lra].
  - apply div_le_mono; [simpl; lra|exact dailyWhOf_mono].
Qed.

End MoreDemand.

Lemma count_mono required required' d :
  Num.positive d -> Num.le required required' ->
  Num.le (Num.ceil (required / d)) (Num.ceil (required' / d)).
Proof. intros Hd H. apply ceil_le_mono, div_le_mono; assumption. Qed.

Lemma selectInverter_at_most_one catalog required :
  (List.length (filter (isType ItemType.inverter) catalog) <= 1)%nat ->
  selectInverter catalog required = find (isType ItemType.inverter) catalog.
Proof.
  intros Hlen. unfold selectInverter, adequateInverter.
  rewrite (find_filter_isType ItemType.inverter
             (fun i => CatalogItem.spec i >=? required)).
  rewrite find_isType_filter.
  destruct (filter (isType ItemType.inverter) catalog) as [|x [|y rest]];
    simpl in *; [reflexivity| |lia].
  destruct (CatalogItem.spec x >=? required); reflexivity.
Qed.

Lemma totalCost_mono_same_inverter b f before after catalog :
  Forall validAppliance before -> Forall validAppliance after ->
  Forall validItem catalog ->
  Num.le (requiredInverterSize before) (requiredInverterSize after) ->
  Num.le (requiredStorageWh before) (requiredStorageWh after) ->
  Num.le (requiredPanelPower before) (requiredPanelPower after) ->
  selectInverter catalog (requiredInverterSize before)
    = selectInverter catalog (requiredInverterSize after) ->
  Num.le (calculateSolarSystem b f before catalog).(financials).(totalCost)
         (calculateSolarSystem b f after catalog).(financials).(totalCost).
Proof.
  intros Hb Ha Hc Hi Hs Hp Hsame.
  rewrite !(totalCost_unitPrice _ Hc).
  rewrite !inverterCount_eq, !batteryCount_eq, !panelCount_eq,
    !inverter_eq, !battery_eq, !panel_eq.
  assert (Hdi := inverterDivisor_positive after Hc).
  assert (Hdb := batteryDivisor_positive Hc).
  assert (Hdp := panelDivisor_positive Hc).
  rewrite Hsame.
  repeat apply add_le_mono.
  - apply mul_le_mono.
    + apply count_nonneg_integer;
        [exact (requiredInverterSize_nonneg Hb)|exact Hdi].
    + apply count_mono; assumption.
    + apply unitPrice_nonneg. intros i Hx.
      exact (proj1 (selectInverter_valid Hc _ Hx)).
    + apply num_le_refl, unitPrice_nonneg. intros i Hx.
      exact (proj1 (selectInverter_valid Hc _ Hx)).
  - apply mul_le_mono.
    + apply count_nonneg_integer;
        [exact (requiredStorageWh_nonneg Hb)|exact Hdb].
    + apply count_mono; assumption.
    + apply unitPrice_nonneg. intros i Hx.
      exact (proj1 (firstOfType_valid Hc _ Hx)).
    + apply num_le_refl, unitPrice_nonneg. intros i Hx.
      exact (proj1 (firstOfType_valid Hc _ Hx)).
  - apply mul_le_mono.
    + apply count_nonneg_integer;
        [exact (requiredPanelPower_nonneg Hb)|exact Hdp].
    + apply count_mono; assumption.
    + apply unitPrice_nonneg. intros i Hx.
      exact (proj1 (firstOfType_valid Hc _ Hx)).
    + apply num_le_refl, unitPrice_nonneg. intros i Hx.
      exact (proj1 (firstOfType_valid Hc _ Hx)).
  - apply num_le_refl, positive_nonneg, installCostOf_positive, Hc.
Qed.




(** ** The engine returns a result on every input *)

Lemma orDefault_truthy v d : Num.truthy d = true -> Num.truthy (orDefault v d) = true.
Proof.
  intros Hd. unfold orDefault. destruct v as [x|]; [|exact Hd].
  destruct (Num.truthy x) eqn:E; [exact E|exact Hd].
Qed.

Lemma zero_over_truthy x d :
  x =n= Fin 0 -> Num.truthy d = true -> Num.ceil (x / d) =n= Fin 0.
Proof.
  destruct x as [q| | |]; simpl; try tauto. intros Hq.
  destruct d as [s| | |]; simpl; try discriminate; try reflexivity.
  intros Hs. apply negb_true_iff in Hs. rewrite Hs. simpl.
  assert (q / s == 0)%Q as -> by (rewrite Hq; reflexivity). reflexivity.
Qed.

(** C6.  On every input the engine returns a result, and each count in it is
    the ceiling of a division whose divisor is neither zero nor [NaN].  With
    no appliance the loads and the three counts are zero, whatever the
    catalog.  For each kind of item that the catalog lacks the reference is
    [undefined] and the fallback constant takes its place: spec 5000, 4800 or
    550 with price 0, and an installation cost of 150000; with an empty
    catalog all four apply at once. *)
Theorem engine_returns_on_every_input b f appliances catalog :
  (exists r,
     calculateSolarSystem b f appliances catalog = r
     /\ r.(system).(inverterCount)
        = Num.ceil (requiredInverterSize appliances / specOr r.(system).(inverter) (Fin 5000))
     /\ Num.truthy (specOr r.(system).(inverter) (Fin 5000)) = true
     /\ r.(system).(batteryCount)
        = Num.ceil (requiredStorageWh appliances / specOr r.(system).(battery) (Fin 4800))
     /\ Num.truthy (specOr r.(system).(battery) (Fin 4800)) = true
     /\ r.(system).(panelCount)
        = Num.ceil (requiredPanelPower appliances / specOr r.(system).(panel) (Fin 550))
     /\ Num.truthy (specOr r.(system).(panel) (Fin 550)) = true
     /\ (missing ItemType.inverter catalog ->
         r.(system).(inverter) = None
         /\ specOr r.(system).(inverter) (Fin 5000) = Fin 5000
         /\ priceOr r.(system).(inverter) (Fin 0) = Fin 0)
     /\ (missing ItemType.battery catalog ->
         r.(system).(battery) = None
         /\ specOr r.(system).(battery) (Fin 4800) = Fin 4800
         /\ priceOr r.(system).(battery) (Fin 0) = Fin 0)
     /\ (missing ItemType.panel catalog ->
         r.(system).(panel) = None
         /\ specOr r.(system).(panel) (Fin 550) = Fin 550
         /\ priceOr r.(system).(panel) (Fin 0) = Fin 0)
     /\ (missing ItemType.installation catalog ->
         installCostOf catalog = Fin 150000))
  /\ (let r := calculateSolarSystem b f [] catalog in
      r.(details).(dailyWh) = Fin 0
      /\ r.(details).(designedPeakLoad) =n= Fin 0
      /\ r.(system).(inverterCount) =n= Fin 0
      /\ r.(system).(batteryCount) =n= Fin 0
      /\ r.(system).(panelCount) =n= Fin 0)
  /\ (let r := calculateSolarSystem b f appliances [] in
      r.(system).(inverter) = None
      /\ r.(system).(battery) = None
      /\ r.(system).(panel) = None
      /\ r.(system).(inverterCount)
         = Num.ceil (requiredInverterSize appliances / Fin 5000)
      /\ r.(system).(batteryCount)
         = Num.ceil (requiredStorageWh appliances / Fin 4800)
      /\ r.(system).(panelCount)
         = Num.ceil (requiredPanelPower appliances / Fin 550)
      /\ r.(financials).(totalCost)
         = r.(system).(inverterCount) * Fin 0 + r.(system).(batteryCount) * Fin 0
           + r.(system).(panelCount) * Fin 0 + Fin 150000).
Proof.
  split; [|split].
  - eexists. split; [reflexivity|].
    rewrite inverterCount_eq, batteryCount_eq, panelCount_eq,
      inverter_eq, battery_eq, panel_eq.
    repeat match goal with
           | |- _ /\ _ => split
           | |- Num.truthy _ = true => apply orDefault_truthy; reflexivity
           | |- Num.ceil _ = Num.ceil _ => reflexivity
           end.
    + intros Hm. rewrite (selectInverter_missing _ Hm). repeat split.
    + intros Hm. rewrite (firstOfType_missing Hm). repeat split.
    + intros Hm. rewrite (firstOfType_missing Hm). repeat split.
    + intros Hm. unfold installCostOf. rewrite (firstOfType_missing Hm).
      reflexivity.
  - cbn zeta. rewrite dailyWh_eq, designedPeakLoad_eq,
      inverterCount_eq, batteryCount_eq, panelCount_eq.
    split; [reflexivity|]. split; [reflexivity|].
    repeat split; apply zero_over_truthy;
      try (apply orDefault_truthy; reflexivity); reflexivity.
  - cbn zeta. rewrite calculateSolarSystem_eq. repeat split.
Qed.

(** * Further properties of the engine *)

(** ** Each count is the least number of units that covers the need *)

Lemma Qceiling_least q s (m : Z) :
  0 < s -> q <= (inject_Z m * s)%Q -> (Qceiling (q / s) <= m)%Z.
Proof.
  intros Hs H. rewrite <- (Qceiling_Z m). apply Qceiling_resp_le.
  apply Qle_shift_div_r; assumption.
Qed.

Lemma ceil_div_least required d :
  Num.nonneg required -> Num.positive d ->
  (Num.ceil (required / d) * d >=? required) = true
  /\ forall m : Z, (Fin (inject_Z m) * d >=? required) = true ->
                   Num.le (Num.ceil (required / d)) (Fin (inject_Z m)).
Proof.
  intros Hq Hs.
  destruct required as [q| | |]; simpl in Hq; try tauto.
  destruct d as [s| | |]; simpl in Hs; try tauto.
  rewrite div_positive_divisor by exact Hs. simpl. split.
  - apply ceil_times_divisor_covers; assumption.
  - intros m Hm. apply Qle_bool_iff in Hm. rewrite <- Zle_Qle.
    apply Qceiling_least; assumption.
Qed.

Lemma specOr_whole catalog item d :
  Forall wholeItem catalog ->
  (forall i, item = Some i -> In i catalog) ->
  whole d ->
  whole (specOr item d).
Proof.
  intros Hc Hin Hd. unfold specOr, orDefault, optChain.
  destruct item as [i|]; [|exact Hd].
  destruct (Num.truthy (CatalogItem.spec i)); [|exact Hd].
  exact (proj2 (proj1 (Forall_forall _ _) Hc i (Hin i eq_refl))).
Qed.

(** X1.  For a whole-number request (whole-number wattage, count, hours,
    prices and specs, loads of at most 10^12) each of the three counts,
    multiplied by the divisor it was computed with, a whole number, covers
    the required size, and no smaller integer does. *)
Theorem counts_are_least_covering b f appliances catalog :
  wholeLoad LOAD_LIMIT appliances ->
  Forall wholeItem catalog ->
  let r := calculateSolarSystem b f appliances catalog in
  let s := r.(system) in
  let least (n required d : number) :=
    whole d
    /\ (n * d >=? required) = true
    /\ forall m : Z, (Fin (inject_Z m) * d >=? required) = true ->
                     Num.le n (Fin (inject_Z m)) in
  least s.(inverterCount) (requiredInverterSize appliances)
        (specOr s.(inverter) (Fin 5000))
  /\ least s.(batteryCount) (requiredStorageWh appliances)
           (specOr s.(battery) (Fin 4800))
  /\ least s.(panelCount) (requiredPanelPower appliances)
           (specOr s.(panel) (Fin 550)).
Proof.
  intros Hload Hitems r s least. subst least s r. cbn beta.
  assert (Ha := wholeLoad_valid Hload).
  assert (Hc := wholeCatalog_valid Hitems).
  assert (Hd : forall z, (0 <= z)%Z -> whole (Fin (inject_Z z))).
  { intros z Hz. split; [exists z; reflexivity|].
    simpl. change 0 with (inject_Z 0). rewrite <- Zle_Qle. exact Hz. }
  rewrite inverterCount_eq, batteryCount_eq, panelCount_eq,
    inverter_eq, battery_eq, panel_eq.
  split; [|split]; (split; [|apply ceil_div_least]).
  - apply (specOr_whole Hitems); [|exact (Hd 5000%Z ltac:(lia))].
    intros i Hx. exact (proj1 (selectInverter_Some_In _ _ Hx)).
  - exact (requiredInverterSize_nonneg Ha).
  - exact (inverterDivisor_positive appliances Hc).
  - apply (specOr_whole Hitems); [|exact (Hd 4800%Z ltac:(lia))].
    intros i Hx. exact (proj1 (firstOfType_Some_In _ _ Hx)).
  - exact (requiredStorageWh_nonneg Ha).
  - exact (batteryDivisor_positive Hc).
  - apply (specOr_whole Hitems); [|exact (Hd 550%Z ltac:(lia))].
    intros i Hx. exact (proj1 (firstOfType_Some_In _ _ Hx)).
  - exact (requiredPanelPower_nonneg Ha).
  - exact (panelDivisor_positive Hc).
Qed.

Lemma counts_are_least_covering_witness :
  let fridge := SelectedAppliance.mk "fridge" "Refrigerator" (Fin 200) (Fin 16) (Fin 2) (Fin 16) in
  let r := calculateSolarSystem (Fin 50000) (Fin 30000) [fridge] DEFAULT_CATALOG in
  let s := r.(system) in
  let least (n required d : number) :=
    whole d
    /\ (n * d >=? required) = true
    /\ forall m : Z, (Fin (inject_Z m) * d >=? required) = true ->
                     Num.le n (Fin (inject_Z m)) in
  wholeLoad LOAD_LIMIT [fridge]
  /\ Forall wholeItem DEFAULT_CATALOG
  /\ least s.(inverterCount) (requiredInverterSize [fridge])
           (specOr s.(inverter) (Fin 5000))
  /\ least s.(batteryCount) (requiredStorageWh [fridge])
           (specOr s.(battery) (Fin 4800))
  /\ least s.(panelCount) (requiredPanelPower [fridge])
           (specOr s.(panel) (Fin 550)).
Proof.
  intros fridge r s least.
  assert (Ha : wholeLoad LOAD_LIMIT [fridge]).
  { concrete_whole. }
  assert (Hc : Forall wholeItem DEFAULT_CATALOG).
  { concrete_whole. }
  split; [exact Ha|]. split; [exact Hc|].
  exact (@counts_are_least_covering (Fin 50000) (Fin 30000) [fridge]
           DEFAULT_CATALOG Ha Hc).
Defined.

(** ** One adequate inverter is enough *)

Lemma truthy_nonneg_positive_inv x : Num.positive x -> Num.truthy x = true.
Proof.
  destruct x as [q| | |]; simpl; try tauto. intros H.
  destruct (Qeq_bool q 0) eqn:E; [|reflexivity].
  apply Qeq_bool_iff in E. rewrite E in H. exfalso. exact (Qlt_irrefl 0 H).
Qed.

Lemma Qceiling_unit_interval q : 0 < q -> q <= 1 -> Qceiling q = 1%Z.
Proof.
  intros H0 H1. assert (Hlo := Qceiling_positive H0).
  assert (Hhi : (Qceiling q <= 1)%Z).
  { change 1%Z with (Qceiling 1). apply Qceiling_resp_le, H1. }
  lia.
Qed.

(** X2.  For a whole-number request (whole-number wattage, count, hours and
    specs, loads of at most 10^12) with a real demand, when some inverter
    item has [spec >= requiredInverterSize] the required size is at least
    0.8 and the engine quotes exactly one inverter. *)
Theorem adequate_inverter_is_quoted_once b f appliances catalog :
  wholeLoad LOAD_LIMIT appliances ->
  Forall wholeItem catalog ->
  Exists hasDemand appliances ->
  (exists i, In i catalog
             /\ adequateInverter (requiredInverterSize appliances) i = true) ->
  Num.le (Fin 0.8) (requiredInverterSize appliances)
  /\ (calculateSolarSystem b f appliances catalog).(system).(inverterCount)
     =n= Fin 1.
Proof.
  intros Hload Hitems Hd Hex.
  assert (Ha := wholeLoad_valid Hload).
  assert (Hc := wholeCatalog_valid Hitems).
  assert (Hreq := requiredInverterSize_positive Ha Hd).
  split.
  { destruct (requiredInverterSize_zero_or_large (proj1 Hload)) as [H0|H]; [|exact H].
    rewrite H0 in Hreq. simpl in Hreq. exfalso. exact (Qlt_irrefl 0 Hreq). }
  rewrite inverterCount_eq.
  destruct (find_adequate_exists _ _ Hex) as (x & Hx).
  assert (Hsel : selectInverter catalog (requiredInverterSize appliances) = Some x).
  { unfold selectInverter. rewrite Hx. reflexivity. }
  rewrite Hsel.
  assert (Hadq := proj2 (find_some _ _ Hx)).
  apply andb_prop in Hadq. destruct Hadq as [_ Hge].
  assert (Hspec := proj2 (selectInverter_valid Hc _ Hsel)).
  unfold specOr, orDefault, optChain.
  destruct (requiredInverterSize appliances) as [q| | |]; simpl in Hreq; try tauto.
  destruct (CatalogItem.spec x) as [s| | |] eqn:Es; simpl in Hspec; try tauto.
  simpl in Hge. apply Qle_bool_iff in Hge.
  assert (Hs : 0 < s) by (eapply Qlt_le_trans; eassumption).
  rewrite (truthy_nonneg_positive_inv (Fin s) Hs).
  rewrite div_positive_divisor by exact Hs. simpl.
  rewrite Qceiling_unit_interval; [reflexivity| |].
  - apply Qdiv_positive; assumption.
  - apply Qle_shift_div_r; [exact Hs|]. rewrite Qmult_1_l. exact Hge.
Qed.

Lemma adequate_inverter_witness :
  let fridge := SelectedAppliance.mk "fridge" "Refrigerator" (Fin 200) (Fin 16) (Fin 2) (Fin 16) in
  wholeLoad LOAD_LIMIT [fridge]
  /\ Forall wholeItem DEFAULT_CATALOG
  /\ Exists hasDemand [fridge]
  /\ (exists i, In i DEFAULT_CATALOG
                /\ adequateInverter (requiredInverterSize [fridge]) i = true)
  /\ Num.le (Fin 0.8) (requiredInverterSize [fridge])
  /\ (calculateSolarSystem (Fin 50000) (Fin 30000) [fridge] DEFAULT_CATALOG)
       .(system).(inverterCount) =n= Fin 1.
Proof.
  intros fridge.
  assert (Ha : wholeLoad LOAD_LIMIT [fridge]).
  { concrete_whole. }
  assert (Hc : Forall wholeItem DEFAULT_CATALOG).
  { concrete_whole. }
  assert (Hd : Exists hasDemand [fridge]).
  { constructor. repeat split. }
  assert (Hex : exists i, In i DEFAULT_CATALOG
                /\ adequateInverter (requiredInverterSize [fridge]) i = true).
  { eexists. split; [right; left; reflexivity|reflexivity]. }
  split; [exact Ha|]. split; [exact Hc|]. split; [exact Hd|]. split; [exact Hex|].
  exact (@adequate_inverter_is_quoted_once (Fin 50000) (Fin 30000) [fridge]
           DEFAULT_CATALOG Ha Hc Hd Hex).
Defined.

(** ** An installation item priced at zero *)

Lemma totalCost_equipment_install b f appliances catalog :
  (calculateSolarSystem b f appliances catalog).(financials).(totalCost)
  = equipmentCostOf appliances catalog + installCostOf catalog.
Proof. rewrite calculateSolarSystem_eq. reflexivity. Qed.

(** X3.  When the first installation item of the catalog has price 0, the
    installation cost is 150000, as for a catalog with no installation item:
    [totalCost] is the equipment cost plus 150000. *)
Theorem zero_install_price_costs_150000 b f appliances catalog i :
  firstOfType ItemType.installation catalog = Some i ->
  i.(CatalogItem.price) =n= Fin 0 ->
  installCostOf catalog = Fin 150000
  /\ (calculateSolarSystem b f appliances catalog).(financials).(totalCost)
     = equipmentCostOf appliances catalog + Fin 150000.
Proof.
  intros Hi Hp.
  assert (H : installCostOf catalog = Fin 150000).
  { rewrite installCostOf_cases, Hi, (zero_falsy _ Hp). reflexivity. }
  split; [exact H|]. rewrite totalCost_equipment_install, H. reflexivity.
Qed.

Lemma zero_install_price_witness :
  let kit := CatalogItem.mk "4" "Mounting & Install Kit" ItemType.installation (Fin 0) (Fin 1) "Lot" in
  let catalog := handleChangePrice DEFAULT_CATALOG "4" (Fin 0) in
  firstOfType ItemType.installation catalog = Some kit
  /\ kit.(CatalogItem.price) =n= Fin 0
  /\ installCostOf catalog = Fin 150000
  /\ (calculateSolarSystem (Fin 50000) (Fin 30000) [] catalog).(financials).(totalCost)
     = equipmentCostOf [] catalog + Fin 150000.
Proof.
  intros kit catalog.
  assert (H1 : firstOfType ItemType.installation catalog = Some kit) by reflexivity.
  assert (H2 : kit.(CatalogItem.price) =n= Fin 0) by reflexivity.
  split; [exact H1|]. split; [exact H2|].
  exact (@zero_install_price_costs_150000 (Fin 50000) (Fin 30000) [] catalog kit H1 H2).
Defined.

(** ** The equipment cost shown on the result page *)

Lemma priceOr_whole catalog item :
  Forall wholeItem catalog ->
  (forall i, item = Some i -> In i catalog) ->
  whole (priceOr item (Fin 0)).
Proof.
  intros Hc Hin. rewrite priceOr_unitPrice.
  - exact (unitPrice_whole Hc Hin).
  - intros i Hi.
    exact (proj2 (proj1 (proj1 (Forall_forall _ _) Hc i (Hin i Hi)))).
Qed.

Lemma equipmentCostOf_whole limit appliances catalog :
  wholeLoad limit appliances -> Forall wholeItem catalog ->
  whole (equipmentCostOf appliances catalog).
Proof.
  intros Hload Hitems.
  assert (Ha := wholeLoad_valid Hload).
  assert (Hc := wholeCatalog_valid Hitems).
  unfold equipmentCostOf. cbn zeta.
  repeat apply whole_add; apply whole_mul;
    try (apply (priceOr_whole Hitems); intros i Hx;
         first [exact (proj1 (selectInverter_Some_In _ _ Hx))
               |exact (proj1 (firstOfType_Some_In _ _ Hx))]);
    unfold whole; apply count_nonneg_integer.
  - exact (requiredInverterSize_nonneg Ha).
  - exact (inverterDivisor_positive appliances Hc).
  - exact (requiredStorageWh_nonneg Ha).
  - exact (batteryDivisor_positive Hc).
  - exact (requiredPanelPower_nonneg Ha).
  - exact (panelDivisor_positive Hc).
Qed.

(** X5.  The result page shows [totalCost - 150000] as the equipment cost.
    For a whole-number request (whole-number wattage, count, hours, prices
    and specs, loads of at most 10^12) whose [totalCost] is at most
    [Number.MAX_SAFE_INTEGER], this is the equipment cost of the engine
    exactly when the installation cost is 150000; with any other
    installation price the figure shown is off by the difference. *)
Theorem shown_equipment_cost_is_right_iff_install_is_150000
    b f appliances catalog :
  wholeLoad LOAD_LIMIT appliances ->
  Forall wholeItem catalog ->
  let r := calculateSolarSystem b f appliances catalog in
  Num.le r.(financials).(totalCost) MAX_SAFE_INTEGER ->
  whole (equipmentCostOf appliances catalog)
  /\ whole (installCostOf catalog)
  /\ (shownEquipmentCost r =n= equipmentCostOf appliances catalog
      <-> installCostOf catalog =n= Fin 150000)
  /\ shownEquipmentCost r
     =n= equipmentCostOf appliances catalog + (installCostOf catalog - Fin 150000).
Proof.
  intros Hload Hitems r Hsafe. subst r. unfold shownEquipmentCost.
  assert (Ha := wholeLoad_valid Hload).
  assert (Hc := wholeCatalog_valid Hitems).
  rewrite totalCost_equipment_install.
  assert (He := equipmentCostOf_whole Hload Hitems).
  assert (Hi := installCostOf_whole Hitems).
  split; [exact He|]. split; [exact Hi|].
  destruct He as [_ He]. destruct Hi as [_ Hi].
  destruct (equipmentCostOf appliances catalog) as [e| | |]; simpl in He; try tauto.
  destruct (installCostOf catalog) as [i| | |]; simpl in Hi; try tauto.
  simpl. split; [split; intros H|]; lra.
Qed.

Lemma shown_equipment_cost_witness :
  let tv := SelectedAppliance.mk "tv" "LED TV (40-55 in)" (Fin 100) (Fin 6) (Fin 1) (Fin 6) in
  let catalog := handleChangePrice DEFAULT_CATALOG "4" (Fin 200000) in
  let r := calculateSolarSystem (Fin 50000) (Fin 30000) [tv] catalog in
  wholeLoad LOAD_LIMIT [tv]
  /\ Forall wholeItem catalog
  /\ Num.le r.(financials).(totalCost) MAX_SAFE_INTEGER
  /\ whole (equipmentCostOf [tv] catalog)
  /\ whole (installCostOf catalog)
  /\ (shownEquipmentCost r =n= equipmentCostOf [tv] catalog
      <-> installCostOf catalog =n= Fin 150000)
  /\ shownEquipmentCost r
     =n= equipmentCostOf [tv] catalog + (installCostOf catalog - Fin 150000).
Proof.
  intros tv catalog r.
  assert (Ha : wholeLoad LOAD_LIMIT [tv]).
  { concrete_whole. }
  assert (Hc : Forall wholeItem catalog).
  { concrete_whole. }
  assert (Hsafe : Num.le r.(financials).(totalCost) MAX_SAFE_INTEGER).
  { vm_compute. discriminate. }
  split; [exact Ha|]. split; [exact Hc|]. split; [exact Hsafe|].
  exact (@shown_equipment_cost_is_right_iff_install_is_150000
           (Fin 50000) (Fin 30000) [tv] catalog Ha Hc Hsafe).
Defined.

(** * The calculator page *)

(** ** The peak load shown on the appliance step *)

Lemma fold_forEachBody_snd_eq appliances : forall d p,
  snd (fold_left forEachBody appliances (d, p))
  = fold_left (fun acc curr =>
                 acc + (curr.(SelectedAppliance.watts) * curr.(SelectedAppliance.count)))
              appliances p.
Proof.
  induction appliances as [|app rest IH]; intros d p; simpl; [reflexivity|].
  apply IH.
Qed.

Lemma totalWatts_peak appliances :
  totalWatts appliances = peakWattsOf appliances
  /\ totalWatts appliances =n= powerSum appliances.
Proof.
  assert (H : totalWatts appliances = peakWattsOf appliances).
  { unfold totalWatts, peakWattsOf, loadTotals.
    symmetry. apply fold_forEachBody_snd_eq. }
  split; [exact H|]. rewrite H. apply peakWattsOf_powerSum.
Qed.

(** X6.  The peak load shown on the appliance step, [totalWatts], is the
    [peakWatts] the engine accumulates for the same list, so the
    [designedPeakLoad] of the result is [totalWatts] times 0.7. *)
Theorem totalWatts_is_engine_peakWatts b f appliances catalog :
  totalWatts appliances = peakWattsOf appliances
  /\ (calculateSolarSystem b f appliances catalog).(details).(designedPeakLoad)
     = totalWatts appliances * Fin 0.7.
Proof.
  assert (H := proj1 (totalWatts_peak appliances)).
  split; [exact H|]. rewrite designedPeakLoad_eq, H. reflexivity.
Qed.

(** ** The appliance lists the page can reach *)

Lemma integerFrom1_positive x : integerFrom1 x -> Num.positive x.
Proof.
  destruct x as [q| | |]; simpl; try tauto. intros (z & Hq & Hz).
  rewrite Hq. rewrite <- (Zlt_Qlt 0). lia.
Qed.

Lemma integerFrom1_le x : integerFrom1 x -> Num.le (Fin 1) x.
Proof.
  destruct x as [q| | |]; simpl; try tauto. intros (z & Hq & Hz).
  rewrite Hq. rewrite <- (Zle_Qle 1). exact Hz.
Qed.

Lemma table_entry_facts app :
  In app COMMON_APPLIANCES ->
  Num.positive app.(Appliance.watts) /\ integerFrom1 app.(Appliance.defaultHours).
Proof.
  intros Hin. simpl in Hin.
  repeat (destruct Hin as [<-|Hin];
          [split; [reflexivity|simpl; eexists; split; [reflexivity|lia]]|]).
  destruct Hin.
Qed.

Lemma selectedOf_fromTable app :
  In app COMMON_APPLIANCES -> fromTable (selectedOf app).
Proof.
  intros Hin. split; [|split].
  - exists app. repeat split. exact Hin.
  - simpl. exists 1%Z. split; [reflexivity|lia].
  - simpl. exact (proj2 (@table_entry_facts app Hin)).
Qed.

Lemma fromTable_valid e : fromTable e -> validAppliance e /\ hasDemand e.
Proof.
  intros ((app & Hin & _ & _ & Hw & _) & Hc & Hh).
  assert (Hpw : Num.positive e.(SelectedAppliance.watts)).
  { rewrite Hw. exact (proj1 (@table_entry_facts app Hin)). }
  assert (Hpc := @integerFrom1_positive _ Hc).
  assert (Hph := @integerFrom1_positive _ Hh).
  split; repeat split; try assumption; apply positive_nonneg; assumption.
Qed.

Lemma find_id_None_notin l id :
  find (fun a => String.eqb a.(SelectedAppliance.id) id) l = None ->
  ~ In id (map SelectedAppliance.id l).
Proof.
  intros Hnone Hin. apply in_map_iff in Hin. destruct Hin as (a & Ha & Hin).
  assert (H := find_none _ _ Hnone a Hin). simpl in H.
  rewrite Ha, String.eqb_refl in H. discriminate H.
Qed.

Lemma NoDup_map_filter {A B : Type} (g : A -> B) (p : A -> bool) l :
  NoDup (map g l) -> NoDup (map g (filter p l)).
Proof.
  induction l as [|a l IH]; simpl; intros H; [constructor|].
  inversion H as [|? ? Hnotin Hnd]; subst.
  destruct (p a); simpl; [|exact (IH Hnd)].
  constructor; [|exact (IH Hnd)].
  intros Hin. apply Hnotin. apply in_map_iff in Hin.
  destruct Hin as (x & Hx & Hin). apply filter_In in Hin.
  apply in_map_iff. exists x. tauto.
Qed.

Lemma toggleAppliance_keeps l app :
  In app COMMON_APPLIANCES ->
  NoDup (map SelectedAppliance.id l) -> Forall fromTable l ->
  NoDup (map SelectedAppliance.id (toggleAppliance l app))
  /\ Forall fromTable (toggleAppliance l app).
Proof.
  intros Hin Hnd Hall. unfold toggleAppliance. cbn zeta.
  destruct (find _ l) as [x|] eqn:E.
  - split; [apply NoDup_map_filter, Hnd|].
    apply Forall_forall. intros a Ha. apply filter_In in Ha.
    rewrite Forall_forall in Hall. apply Hall. tauto.
  - split.
    + rewrite map_app. simpl.
      apply NoDup_app; [exact Hnd|repeat constructor; intros []|].
      intros id Hid [<-|[]]. exact (@find_id_None_notin _ _ E Hid).
    + apply Forall_app. split; [exact Hall|].
      constructor; [exact (@selectedOf_fromTable app Hin)|constructor].
Qed.

Lemma updateItem_id id field delta item :
  (updateItem id field delta item).(SelectedAppliance.id)
  = item.(SelectedAppliance.id).
Proof.
  unfold updateItem.
  destruct (negb _); [reflexivity|]. cbn zeta.
  destruct (_ <? _); [reflexivity|]. destruct field; reflexivity.
Qed.

Lemma updateAppliance_ids l id field delta :
  map SelectedAppliance.id (updateAppliance l id field delta)
  = map SelectedAppliance.id l.
Proof.
  unfold updateAppliance. rewrite map_map. apply map_ext.
  intros a. apply updateItem_id.
Qed.

Lemma step_integerFrom1 x delta :
  integerFrom1 x -> delta = Fin 1 \/ delta = Fin (-1) ->
  (x + delta <? Fin 1) = false -> integerFrom1 (x + delta).
Proof.
  destruct x as [q| | |]; simpl; try tauto. intros (z & Hq & Hz) Hd Hlt.
  destruct Hd as [-> | ->]; simpl in *.
  - exists (z + 1)%Z. split; [|lia]. rewrite Hq, inject_Z_plus. reflexivity.
  - apply negb_false_iff, Qle_bool_iff in Hlt.
    exists (z - 1)%Z. rewrite Hq in Hlt.
    assert (Hz1 : 1 <= inject_Z (z - 1)).
    { unfold Z.sub. rewrite inject_Z_plus. exact Hlt. }
    rewrite <- (Zle_Qle 1) in Hz1. split; [|exact Hz1].
    rewrite Hq. unfold Z.sub. rewrite inject_Z_plus. reflexivity.
Qed.

Lemma updateItem_fromTable id field delta item :
  delta = Fin 1 \/ delta = Fin (-1) ->
  fromTable item -> fromTable (updateItem id field delta item).
Proof.
  intros Hd Hitem. unfold updateItem.
  destruct (negb _); [exact Hitem|]. cbn zeta.
  destruct (_ <? _) eqn:E; [exact Hitem|].
  destruct Hitem as (Happ & Hc & Hh).
  destruct field; simpl in *; (split; [exact Happ|split]); try assumption;
    apply step_integerFrom1; assumption.
Qed.

Lemma reachable_invariant l :
  reachableSelection l ->
  NoDup (map SelectedAppliance.id l) /\ Forall fromTable l.
Proof.
  induction 1 as [|l app _ IH Hin|l id field delta _ IH Hd].
  - split; constructor.
  - destruct IH as [Hnd Hall]. apply toggleAppliance_keeps; assumption.
  - destruct IH as [Hnd Hall]. split.
    + rewrite updateAppliance_ids. exact Hnd.
    + unfold updateAppliance. apply Forall_forall. intros x Hx.
      apply in_map_iff in Hx. destruct Hx as (a & <- & Ha).
      apply updateItem_fromTable; [exact Hd|].
      rewrite Forall_forall in Hall. exact (Hall a Ha).
Qed.

(** X7.  Every appliance list the calculator page can reach, from the empty
    list by toggling entries of the appliance table and pressing [+] and
    [-], has pairwise distinct ids, and each entry carries the name, wattage
    and default hours of its table entry with a count and hours that are
    integers from 1 up. *)
Theorem reachable_selection_is_well_formed l :
  reachableSelection l ->
  NoDup (map SelectedAppliance.id l)
  /\ Forall fromTable l
  /\ Forall validAppliance l
  /\ Forall hasDemand l.
Proof.
  intros Hreach. destruct (reachable_invariant Hreach) as [Hnd Hall].
  split; [exact Hnd|]. split; [exact Hall|].
  split; eapply Forall_impl; try exact Hall; intros a Ha.
  - exact (proj1 (fromTable_valid Ha)).
  - exact (proj2 (fromTable_valid Ha)).
Qed.

Lemma reachable_selection_witness :
  let tv := Appliance.mk "tv" ("LED TV (40-55" ++ dquote ++ ")")%string (Fin 100) (Fin 6) in
  let l := updateAppliance (toggleAppliance [] tv) "tv" UsageField.count (Fin 1) in
  reachableSelection l
  /\ NoDup (map SelectedAppliance.id l)
  /\ Forall fromTable l
  /\ Forall validAppliance l
  /\ Forall hasDemand l.
Proof.
  intros tv l.
  assert (Hreach : reachableSelection l).
  { apply reach_update; [|left; reflexivity].
    apply reach_toggle; [apply reach_initial|].
    right; right; left. reflexivity. }
  split; [exact Hreach|].
  exact (@reachable_selection_is_well_formed l Hreach).
Defined.

(** ** Every quote made through the page has at least one unit of each kind *)

Lemma ltb_zero_positive x : Num.positive x -> (x >? Fin 0) = true.
Proof.
  destruct x as [q| | |]; simpl; try tauto. intros H.
  apply negb_true_iff. destruct (Qle_bool q 0) eqn:E; [|reflexivity].
  apply Qle_bool_iff in E. exfalso. exact (Qlt_not_le _ _ H E).
Qed.

(** X8.  For a reachable appliance list the button that leads on from the
    appliance step, shown when [totalWatts > 0], is there exactly when the
    list is not empty; and for such a list and a validated catalog the engine
    quotes at least one inverter, one battery and one panel. *)
Theorem reachable_quote_has_every_kind b f l catalog :
  reachableSelection l ->
  Forall validItem catalog ->
  ((totalWatts l >? Fin 0) = true <-> l <> [])
  /\ (l <> [] ->
      let s := (calculateSolarSystem b f l catalog).(system) in
      Num.le (Fin 1) s.(inverterCount)
      /\ Num.le (Fin 1) s.(batteryCount)
      /\ Num.le (Fin 1) s.(panelCount)).
Proof.
  intros Hreach Hc.
  destruct (reachable_invariant Hreach) as [_ Hall].
  assert (Ha : Forall validAppliance l).
  { eapply Forall_impl; [|exact Hall]. intros a H. exact (proj1 (fromTable_valid H)). }
  assert (Hd : l <> [] -> Exists hasDemand l).
  { destruct l as [|a rest]; [congruence|]. intros _. left.
    inversion Hall; subst. exact (proj2 (fromTable_valid H1)). }
  split; [split|].
  - intros H E. subst l. discriminate H.
  - intros Hne. rewrite (proj1 (totalWatts_peak l)).
    apply ltb_zero_positive. exact (peakWattsOf_positive Ha (Hd Hne)).
  - intros Hne. cbn zeta.
    rewrite inverterCount_eq, batteryCount_eq, panelCount_eq.
    repeat split; apply count_at_least_one.
    + exact (requiredInverterSize_positive Ha (Hd Hne)).
    + exact (inverterDivisor_positive l Hc).
    + exact (requiredStorageWh_positive Ha (Hd Hne)).
    + exact (batteryDivisor_positive Hc).
    + exact (requiredPanelPower_positive Ha (Hd Hne)).
    + exact (panelDivisor_positive Hc).
Qed.

Lemma reachable_quote_witness :
  let fridge := Appliance.mk "fridge" "Refrigerator" (Fin 200) (Fin 16) in
  let l := toggleAppliance [] fridge in
  reachableSelection l
  /\ Forall validItem DEFAULT_CATALOG
  /\ ((totalWatts l >? Fin 0) = true <-> l <> [])
  /\ (l <> [] ->
      let s := (calculateSolarSystem (Fin 50000) (Fin 30000) l DEFAULT_CATALOG).(system) in
      Num.le (Fin 1) s.(inverterCount)
      /\ Num.le (Fin 1) s.(batteryCount)
      /\ Num.le (Fin 1) s.(panelCount)).
Proof.
  intros fridge l.
  assert (Hreach : reachableSelection l).
  { apply reach_toggle; [apply reach_initial|].
    do 4 right. left. reflexivity. }
  assert (Hc : Forall validItem DEFAULT_CATALOG) by concrete_valid.
  split; [exact Hreach|]. split; [exact Hc|].
  exact (@reachable_quote_has_every_kind (Fin 50000) (Fin 30000) l
           DEFAULT_CATALOG Hreach Hc).
Defined.

(** ** Toggling an appliance *)

Lemma filter_all_true {A : Type} (p : A -> bool) l :
  (forall a, In a l -> p a = true) -> filter p l = l.
Proof.
  induction l as [|a l IH]; simpl; intros H; [reflexivity|].
  rewrite (H a (or_introl eq_refl)). f_equal. apply IH.
  intros x Hx. apply H. right. exact Hx.
Qed.

Lemma find_filter_negb {A : Type} (p : A -> bool) l :
  find p (filter (fun a => negb (p a)) l) = None.
Proof.
  induction l as [|a l IH]; simpl; [reflexivity|].
  destruct (p a) eqn:E; simpl; [exact IH|]. rewrite E. exact IH.
Qed.

Lemma find_app_None {A : Type} (p : A -> bool) l l' :
  find p l = None -> find p (l ++ l') = find p l'.
Proof.
  induction l as [|a l IH]; simpl; [reflexivity|].
  destruct (p a); [discriminate|exact IH].
Qed.

(** X9.  Toggling an appliance twice gives back the list when the appliance
    was not selected.  When it was selected, the entry comes back at the end
    of the list with count 1 and its default hours: the count and hours set
    before are lost.  After one toggle the appliance is selected exactly when
    it was not before. *)
Theorem toggleAppliance_twice l app :
  let selected l :=
    find (fun a => String.eqb a.(SelectedAppliance.id) app.(Appliance.id)) l in
  toggleAppliance (toggleAppliance l app) app
  = match selected l with
    | None => l
    | Some _ =>
        filter (fun a => negb (String.eqb a.(SelectedAppliance.id) app.(Appliance.id))) l
        ++ [selectedOf app]
    end
  /\ selected (toggleAppliance l app)
     = match selected l with
       | None => Some (selectedOf app)
       | Some _ => None
       end.
Proof.
  intros selected. subst selected. cbn beta.
  unfold toggleAppliance at 2 3. cbn zeta.
  destruct (find _ l) as [x|] eqn:E.
  - assert (Hnone := find_filter_negb
                       (fun a => String.eqb a.(SelectedAppliance.id) app.(Appliance.id)) l).
    split; [|exact Hnone].
    unfold toggleAppliance. cbn zeta. rewrite Hnone. reflexivity.
  - assert (Hfind : find (fun a => String.eqb a.(SelectedAppliance.id) app.(Appliance.id))
                         (l ++ [selectedOf app]) = Some (selectedOf app)).
    { rewrite (find_app_None _ _ _ E). simpl. rewrite String.eqb_refl. reflexivity. }
    split; [|exact Hfind].
    unfold toggleAppliance. cbn zeta. rewrite Hfind.
    rewrite filter_app. simpl. rewrite String.eqb_refl. simpl.
    rewrite app_nil_r. apply filter_all_true.
    intros a Ha. rewrite (find_none _ _ E a Ha). reflexivity.
Qed.

(** ** The + and - buttons *)

Lemma ltb_false_le x d :
  Num.le (Fin 1) x -> (x + Fin d <? Fin 1) = false -> Num.le (Fin 1) (x + Fin d).
Proof.
  destruct x as [q| | |]; simpl; try tauto. intros _ H.
  apply negb_false_iff, Qle_bool_iff in H. exact H.
Qed.

Lemma updateItem_usageFrom1 id field d item :
  Num.le (Fin 1) item.(SelectedAppliance.count)
  /\ Num.le (Fin 1) item.(SelectedAppliance.hours) ->
  let item' := updateItem id field (Fin d) item in
  Num.le (Fin 1) item'.(SelectedAppliance.count)
  /\ Num.le (Fin 1) item'.(SelectedAppliance.hours).
Proof.
  intros [Hc Hh]. cbn zeta. unfold updateItem.
  destruct (negb _); [tauto|]. cbn zeta.
  destruct (_ <? _) eqn:E; [tauto|].
  destruct field; simpl in *; split; try assumption;
    apply ltb_false_le; assumption.
Qed.

(** X10.  [updateAppliance] with a finite delta keeps the ids, names and
    wattages of the list, entry by entry and in order, and never takes a
    count or hours that was at least 1 below 1. *)
Theorem updateAppliance_keeps_entries_and_floor l id field (d : Q) :
  usageFrom1 l ->
  let l' := updateAppliance l id field (Fin d) in
  map SelectedAppliance.id l' = map SelectedAppliance.id l
  /\ map SelectedAppliance.name l' = map SelectedAppliance.name l
  /\ map SelectedAppliance.watts l' = map SelectedAppliance.watts l
  /\ usageFrom1 l'.
Proof.
  intros Hl l'. subst l'. unfold updateAppliance.
  assert (Hkeep : forall item,
             let item' := updateItem id field (Fin d) item in
             item'.(SelectedAppliance.id) = item.(SelectedAppliance.id)
             /\ item'.(SelectedAppliance.name) = item.(SelectedAppliance.name)
             /\ item'.(SelectedAppliance.watts) = item.(SelectedAppliance.watts)).
  { intros item. cbn zeta. unfold updateItem.
    destruct (negb _); [tauto|]. cbn zeta.
    destruct (_ <? _); [tauto|]. destruct field; simpl; tauto. }
  rewrite !map_map. repeat split.
  - apply map_ext. intros a. exact (proj1 (Hkeep a)).
  - apply map_ext. intros a. exact (proj1 (proj2 (Hkeep a))).
  - apply map_ext. intros a. exact (proj2 (proj2 (Hkeep a))).
  - unfold usageFrom1 in *. apply Forall_forall. intros x Hx.
    apply in_map_iff in Hx. destruct Hx as (a & <- & Ha).
    apply updateItem_usageFrom1. rewrite Forall_forall in Hl. exact (Hl a Ha).
Qed.

Lemma updateAppliance_floor_witness :
  let pump := SelectedAppliance.mk "pump" "Water Pump (Sumo)" (Fin 750) (Fin 1) (Fin 1) (Fin 1) in
  let l' := updateAppliance [pump] "pump" UsageField.hours (Fin (-1)) in
  usageFrom1 [pump]
  /\ map SelectedAppliance.id l' = map SelectedAppliance.id [pump]
  /\ map SelectedAppliance.name l' = map SelectedAppliance.name [pump]
  /\ map SelectedAppliance.watts l' = map SelectedAppliance.watts [pump]
  /\ usageFrom1 l'.
Proof.
  intros pump l'.
  assert (H : usageFrom1 [pump]).
  { repeat constructor; simpl; discriminate. }
  split; [exact H|].
  exact (@updateAppliance_keeps_entries_and_floor [pump] "pump" UsageField.hours (-1) H).
Defined.

Lemma sameEntry_refl a : sameEntry a a.
Proof. repeat split; reflexivity. Qed.

Lemma Forall2_map_l {A : Type} (R : A -> A -> Prop) (g : A -> A) l :
  (forall a, In a l -> R (g a) a) -> Forall2 R (map g l) l.
Proof.
  induction l as [|a l IH]; simpl; intros H; constructor.
  - apply H. left. reflexivity.
  - apply IH. intros x Hx. apply H. right. exact Hx.
Qed.

Lemma getUsage_setUsage field item v :
  getUsage field (setUsage field item v) = v.
Proof. destruct field; reflexivity. Qed.

Lemma setUsage_id field item v :
  (setUsage field item v).(SelectedAppliance.id) = item.(SelectedAppliance.id).
Proof. destruct field; reflexivity. Qed.

Lemma getUsage_le1 field item :
  Num.le (Fin 1) item.(SelectedAppliance.count)
  /\ Num.le (Fin 1) item.(SelectedAppliance.hours) ->
  Num.le (Fin 1) (getUsage field item).
Proof. destruct field; simpl; tauto. Qed.

Lemma setUsage_setUsage_same field item v w :
  w =n= getUsage field item ->
  sameEntry (setUsage field (setUsage field item v) w) item.
Proof.
  intros H. destruct field; simpl in *; repeat split; try reflexivity; exact H.
Qed.

Lemma updateItem_up_down id field item :
  Num.le (Fin 1) item.(SelectedAppliance.count)
  /\ Num.le (Fin 1) item.(SelectedAppliance.hours) ->
  sameEntry (updateItem id field (Fin (-1)) (updateItem id field (Fin 1) item)) item.
Proof.
  intros Hitem. assert (Hv := getUsage_le1 field item Hitem).
  unfold updateItem at 2.
  destruct (negb (String.eqb (SelectedAppliance.id item) id)) eqn:Eid.
  - unfold updateItem. rewrite Eid. apply sameEntry_refl.
  - cbn zeta. destruct (getUsage field item) as [v| | |] eqn:Ev;
      simpl in Hv; try tauto.
    assert (Hup : (Fin v + Fin 1 <? Fin 1) = false).
    { simpl. apply negb_false_iff, Qle_bool_iff. lra. }
    rewrite Hup. unfold updateItem. rewrite setUsage_id, Eid. cbn zeta.
    rewrite getUsage_setUsage.
    assert (Hdown : (Fin v + Fin 1 + Fin (-1) <? Fin 1) = false).
    { simpl. apply negb_false_iff, Qle_bool_iff. lra. }
    rewrite Hdown. apply setUsage_setUsage_same. rewrite Ev. simpl. ring.
Qed.

(** X11.  On a list whose counts and hours are at least 1, pressing [+] and
    then [-] on the same field of the same appliance gives back the same
    entries.  Pressing [-] on a value of 1 changes nothing, so [-] followed by
    [+] does not give back the list there. *)
Theorem plus_then_minus_restores l id field :
  usageFrom1 l ->
  Forall2 sameEntry
    (updateAppliance (updateAppliance l id field (Fin 1)) id field (Fin (-1))) l
  /\ (Forall (fun e => e.(SelectedAppliance.id) = id -> getUsage field e =n= Fin 1) l ->
      updateAppliance l id field (Fin (-1)) = l).
Proof.
  intros Hl. unfold updateAppliance. split.
  - rewrite map_map. apply Forall2_map_l. intros a Ha.
    apply updateItem_up_down. unfold usageFrom1 in Hl.
    rewrite Forall_forall in Hl. exact (Hl a Ha).
  - intros Hone. rewrite <- (map_id l) at 2. apply map_ext_in.
    intros a Ha. unfold updateItem.
    destruct (String.eqb (SelectedAppliance.id a) id) eqn:Eid; simpl; [|reflexivity].
    apply String.eqb_eq in Eid. rewrite Forall_forall in Hone.
    assert (H1 := Hone a Ha Eid).
    destruct (getUsage field a) as [v| | |]; simpl in H1; try tauto.
    assert (Hlt : (Fin v + Fin (-1) <? Fin 1) = true).
    { simpl. apply negb_true_iff. destruct (Qle_bool 1 (v + -1)) eqn:E; [|reflexivity].
      apply Qle_bool_iff in E. rewrite H1 in E. exfalso. lra. }
    rewrite Hlt. reflexivity.
Qed.

Lemma plus_then_minus_witness :
  let fan := SelectedAppliance.mk "fan" "Ceiling Fan" (Fin 75) (Fin 12) (Fin 1) (Fin 12) in
  let l := [fan] in
  usageFrom1 l
  /\ Forall2 sameEntry
       (updateAppliance (updateAppliance l "fan" UsageField.count (Fin 1))
                        "fan" UsageField.count (Fin (-1))) l
  /\ (Forall (fun e => e.(SelectedAppliance.id) = "fan"%string ->
                       getUsage UsageField.count e =n= Fin 1) l ->
      updateAppliance l "fan" UsageField.count (Fin (-1)) = l).
Proof.
  intros fan l.
  assert (H : usageFrom1 l).
  { repeat constructor; simpl; discriminate. }
  split; [exact H|].
  exact (@plus_then_minus_restores l "fan" UsageField.count H).
Defined.

(** ** More usage through the + button *)

Lemma sumBy_le_pointwise (f : SelectedAppliance.t -> number)
    (g : SelectedAppliance.t -> SelectedAppliance.t) l :
  (forall a, In a l -> Num.le (f a) (f (g a))) ->
  Num.le (sumBy f l) (sumBy f (map g l)).
Proof.
  induction l as [|a l IH]; simpl; intros H.
  - apply Qle_refl.
  - apply add_le_mono.
    + apply H. left. reflexivity.
    + apply IH. intros x Hx. apply H. right. exact Hx.
Qed.

Lemma le_add_nonneg x d : Num.nonneg x -> 0 <= d -> Num.le x (x + Fin d).
Proof. destruct x as [q| | |]; simpl; try tauto. intros. lra. Qed.

Lemma updateItem_more id field d item :
  validAppliance item -> 0 <= d ->
  Num.le (powerOf item) (powerOf (updateItem id field (Fin d) item))
  /\ Num.le (energyOf item) (energyOf (updateItem id field (Fin d) item)).
Proof.
  intros (Hw & Hc & Hh) Hd.
  assert (Hp : Num.nonneg (powerOf item)) by (apply nonneg_mul; assumption).
  assert (He : Num.nonneg (energyOf item)).
  { unfold energyOf. repeat apply nonneg_mul; assumption. }
  unfold updateItem. destruct (negb _).
  { split; apply num_le_refl; assumption. }
  cbn zeta. destruct (_ <? _).
  { split; apply num_le_refl; assumption. }
  destruct field; unfold powerOf, energyOf; simpl.
  - assert (Hpw : Num.le (SelectedAppliance.watts item * SelectedAppliance.count item)
                         (SelectedAppliance.watts item
                          * (SelectedAppliance.count item + Fin d))).
    { apply mul_le_mono; try assumption;
        [apply num_le_refl; assumption|apply le_add_nonneg; assumption]. }
    split; [exact Hpw|].
    apply mul_le_mono; try assumption. apply num_le_refl; assumption.
  - split; [apply num_le_refl; exact Hp|].
    apply mul_le_mono; try assumption.
    + apply num_le_refl; exact Hp.
    + apply le_add_nonneg; assumption.
Qed.

(** X12.  On a validated list, [updateAppliance] with a delta that is not
    negative never lowers the peak load shown on the page nor the [dailyWh]
    and [designedPeakLoad] of the engine. *)
Theorem updateAppliance_up_never_lowers_load b f catalog l id field (d : Q) :
  Forall validAppliance l ->
  0 <= d ->
  let l' := updateAppliance l id field (Fin d) in
  Num.le (totalWatts l) (totalWatts l')
  /\ Num.le (calculateSolarSystem b f l catalog).(details).(dailyWh)
            (calculateSolarSystem b f l' catalog).(details).(dailyWh)
  /\ Num.le (calculateSolarSystem b f l catalog).(details).(designedPeakLoad)
            (calculateSolarSystem b f l' catalog).(details).(designedPeakLoad).
Proof.
  intros Hl Hd l'. subst l'.
  assert (Hpeak : Num.le (peakWattsOf l) (peakWattsOf (updateAppliance l id field (Fin d)))).
  { rewrite !peakWattsOf_powerSum. apply sumBy_le_pointwise.
    intros a Ha. rewrite Forall_forall in Hl.
    exact (proj1 (updateItem_more id field (Hl a Ha) Hd)). }
  rewrite !(proj1 (totalWatts_peak _)), !dailyWh_eq, !designedPeakLoad_eq.
  split; [exact Hpeak|]. split.
  - rewrite !dailyWhOf_energySum. apply sumBy_le_pointwise.
    intros a Ha. rewrite Forall_forall in Hl.
    exact (proj2 (updateItem_more id field (Hl a Ha) Hd)).
  - apply mul_const_mono; [lra|exact (peakWattsOf_nonneg Hl)|exact Hpeak].
Qed.

Lemma updateAppliance_up_witness :
  let fan := SelectedAppliance.mk "fan" "Ceiling Fan" (Fin 75) (Fin 12) (Fin 1) (Fin 12) in
  let l := [fan] in
  let l' := updateAppliance l "fan" UsageField.hours (Fin 1) in
  Forall validAppliance l
  /\ 0 <= 1
  /\ Num.le (totalWatts l) (totalWatts l')
  /\ Num.le (calculateSolarSystem (Fin 0) (Fin 0) l DEFAULT_CATALOG).(details).(dailyWh)
            (calculateSolarSystem (Fin 0) (Fin 0) l' DEFAULT_CATALOG).(details).(dailyWh)
  /\ Num.le (calculateSolarSystem (Fin 0) (Fin 0) l DEFAULT_CATALOG).(details).(designedPeakLoad)
            (calculateSolarSystem (Fin 0) (Fin 0) l' DEFAULT_CATALOG).(details).(designedPeakLoad).
Proof.
  intros fan l l'.
  assert (Ha : Forall validAppliance l) by concrete_valid.
  assert (Hd : 0 <= 1) by discriminate.
  split; [exact Ha|]. split; [exact Hd|].
  exact (@updateAppliance_up_never_lowers_load (Fin 0) (Fin 0) DEFAULT_CATALOG
           l "fan" UsageField.hours 1 Ha Hd).
Defined.

(** ** No upper bound on count and hours *)

Lemma iter_map {A : Type} (g : A -> A) n l :
  Nat.iter n (map g) l = map (Nat.iter n g) l.
Proof.
  induction n as [|n IH]; simpl.
  - symmetry. apply map_id.
  - rewrite IH, map_map. reflexivity.
Qed.

Lemma updateItem_plus_n id field item n :
  item.(SelectedAppliance.id) = id ->
  Num.nonneg (getUsage field item) ->
  let item' := Nat.iter n (updateItem id field (Fin 1)) item in
  item'.(SelectedAppliance.id) = id
  /\ getUsage field item' =n= getUsage field item + Fin (inject_Z (Z.of_nat n)).
Proof.
  intros Hid Hv. induction n as [|n IH]; cbn zeta.
  - simpl. split; [exact Hid|].
    destruct (getUsage field item); simpl in *; try tauto. ring.
  - cbn zeta in IH. destruct IH as [Hid' Hn]. rewrite Nat.iter_succ.
    set (prev := Nat.iter n (updateItem id field (Fin 1)) item) in *.
    unfold updateItem. rewrite Hid', String.eqb_refl. simpl negb. cbn iota zeta.
    destruct (getUsage field item) as [v| | |]; simpl in Hv; try tauto.
    destruct (getUsage field prev) as [w| | |]; simpl in Hn; try tauto.
    assert (Hup : (Fin w + Fin 1 <? Fin 1) = false).
    { simpl. apply negb_false_iff, Qle_bool_iff. rewrite Hn.
      assert (0 <= inject_Z (Z.of_nat n)) by (rewrite <- (Zle_Qle 0); lia). lra. }
    rewrite Hup. rewrite setUsage_id, getUsage_setUsage. split; [exact Hid'|].
    rewrite Nat2Z.inj_succ. unfold Z.succ. cbn [Num.eq Num.add].
    rewrite Hn, inject_Z_plus. ring.
Qed.

(** X13.  Pressing [+] n times on a field of an appliance adds n to it,
    whatever n: the page puts no upper bound on a count or on the hours per
    day, 24 included. *)
Theorem plus_n_times_adds_n l id field n :
  Forall (fun e => Num.nonneg (getUsage field e)) l ->
  Forall2 (fun e e' =>
             e.(SelectedAppliance.id) = id ->
             getUsage field e' =n= getUsage field e + Fin (inject_Z (Z.of_nat n)))
          l
          (Nat.iter n (fun l => updateAppliance l id field (Fin 1)) l).
Proof.
  intros Hl.
  change (fun l0 => updateAppliance l0 id field (Fin 1))
    with (map (updateItem id field (Fin 1))).
  rewrite iter_map. apply Forall2_flip. apply Forall2_map_l.
  intros a Ha Hid. rewrite Forall_forall in Hl.
  exact (proj2 (@updateItem_plus_n id field a n Hid (Hl a Ha))).
Qed.

Lemma plus_n_times_witness :
  let fridge := SelectedAppliance.mk "fridge" "Refrigerator" (Fin 200) (Fin 16) (Fin 1) (Fin 16) in
  Forall (fun e => Num.nonneg (getUsage UsageField.hours e)) [fridge]
  /\ Forall2 (fun e e' =>
                e.(SelectedAppliance.id) = "fridge"%string ->
                getUsage UsageField.hours e'
                =n= getUsage UsageField.hours e + Fin (inject_Z (Z.of_nat 9)))
             [fridge]
             (Nat.iter 9 (fun l => updateAppliance l "fridge" UsageField.hours (Fin 1))
                       [fridge]).
Proof.
  intros fridge.
  assert (H : Forall (fun e => Num.nonneg (getUsage UsageField.hours e)) [fridge]).
  { repeat constructor; simpl; discriminate. }
  split; [exact H|].
  exact (@plus_n_times_adds_n [fridge] "fridge" UsageField.hours 9 H).
Defined.

(** * The catalog editor *)

Lemma find_map_same {A : Type} (p : A -> bool) (g : A -> A) l :
  (forall a, p (g a) = p a) -> find p (map g l) = option_map g (find p l).
Proof.
  intros H. induction l as [|a l IH]; simpl; [reflexivity|].
  rewrite H. destruct (p a); [reflexivity|exact IH].
Qed.

Section PriceEdit.

Variable id : string.
Variable val : number.

Let edit (i : CatalogItem.t) : CatalogItem.t :=
  if String.eqb i.(CatalogItem.id) id then withPrice i val else i.

Lemma edit_keeps i :
  (edit i).(CatalogItem.id) = i.(CatalogItem.id)
  /\ (edit i).(CatalogItem.name) = i.(CatalogItem.name)
  /\ (edit i).(CatalogItem.type) = i.(CatalogItem.type)
  /\ (edit i).(CatalogItem.spec) = i.(CatalogItem.spec)
  /\ (edit i).(CatalogItem.unit) = i.(CatalogItem.unit).
Proof. unfold edit. destruct (String.eqb _ _); repeat split. Qed.

Lemma firstOfType_edit k catalog :
  firstOfType k (handleChangePrice catalog id val)
  = option_map edit (firstOfType k catalog).
Proof.
  unfold firstOfType, handleChangePrice. apply (find_map_same (isType k) edit).
  intros a. unfold isType. rewrite (proj1 (proj2 (proj2 (edit_keeps a)))).
  reflexivity.
Qed.

Lemma selectInverter_edit catalog required :
  selectInverter (handleChangePrice catalog id val) required
  = option_map edit (selectInverter catalog required).
Proof.
  unfold selectInverter.
  replace (find (adequateInverter required) (handleChangePrice catalog id val))
    with (option_map edit (find (adequateInverter required) catalog)).
  - destruct (find (adequateInverter required) catalog); simpl; [reflexivity|].
    exact (firstOfType_edit ItemType.inverter catalog).
  - symmetry. apply (find_map_same (adequateInverter required) edit).
    intros a. unfold adequateInverter, isType.
    destruct (edit_keeps a) as (_ & _ & -> & -> & _). reflexivity.
Qed.

Lemma specOr_edit item d : specOr (option_map edit item) d = specOr item d.
Proof.
  destruct item as [i|]; [|reflexivity]. unfold specOr, optChain, option_map.
  destruct (edit_keeps i) as (_ & _ & _ & H & _). rewrite H. reflexivity.
Qed.

Lemma sameButPrice_edit item : sameButPrice (option_map edit item) item.
Proof.
  destruct item as [i|]; [|repeat split].
  unfold sameButPrice, option_map.
  destruct (edit_keeps i) as (H1 & H2 & H3 & H4 & _).
  rewrite H1, H2, H3, H4. repeat split.
Qed.

(** X14.  Changing a price in the catalog editor changes nothing in the
    sizing: for every request the engine chooses items with the same id,
    name, type and spec and returns the same three counts. *)
Theorem price_edit_keeps_sizing b f appliances catalog :
  let r := calculateSolarSystem b f appliances catalog in
  let r' := calculateSolarSystem b f appliances (handleChangePrice catalog id val) in
  r'.(system).(inverterCount) = r.(system).(inverterCount)
  /\ r'.(system).(batteryCount) = r.(system).(batteryCount)
  /\ r'.(system).(panelCount) = r.(system).(panelCount)
  /\ sameButPrice r'.(system).(inverter) r.(system).(inverter)
  /\ sameButPrice r'.(system).(battery) r.(system).(battery)
  /\ sameButPrice r'.(system).(panel) r.(system).(panel).
Proof.
  cbn zeta.
  rewrite !inverterCount_eq, !batteryCount_eq, !panelCount_eq,
    !inverter_eq, !battery_eq, !panel_eq.
  rewrite selectInverter_edit, !firstOfType_edit, !specOr_edit.
  repeat split; apply sameButPrice_edit.
Qed.

End PriceEdit.

(** * The result page *)

Lemma firstOfType_None_iff k catalog :
  firstOfType k catalog = None <-> missing k catalog.
Proof.
  split; [apply find_isType_None_missing|apply firstOfType_missing].
Qed.

Lemma selectInverter_None_iff catalog required :
  selectInverter catalog required = None <-> missing ItemType.inverter catalog.
Proof.
  split; [|apply selectInverter_missing].
  unfold selectInverter.
  destruct (find (adequateInverter required) catalog); simpl; [discriminate|].
  apply find_isType_None_missing.
Qed.

(** X15.  The result page reads the names of the chosen panel, inverter and
    battery without [?.]: rendering the result of the engine raises a
    [TypeError] exactly when the catalog lacks a panel, an inverter or a
    battery item, inputs on which the engine itself returns a result. *)
Theorem result_page_throws_iff_kind_missing b f appliances catalog :
  equipmentNames (calculateSolarSystem b f appliances catalog) = TypeError
  <-> (missing ItemType.panel catalog
       \/ missing ItemType.inverter catalog
       \/ missing ItemType.battery catalog).
Proof.
  unfold equipmentNames. rewrite inverter_eq, battery_eq, panel_eq.
  rewrite <- (selectInverter_None_iff catalog (requiredInverterSize appliances)),
    <- !firstOfType_None_iff.
  destruct (firstOfType ItemType.panel catalog) as [p|];
    destruct (selectInverter catalog (requiredInverterSize appliances)) as [i|];
    destruct (firstOfType ItemType.battery catalog) as [bt|]; simpl;
    split; intros H; try reflexivity; try discriminate H; try tauto;
    destruct H as [H|[H|H]]; discriminate H.
Qed.

(** * Leads *)

Section HandleCalculateFacts.

Variable numberToString : number -> string.
Variables randomId today : string.
Variable catalog : list CatalogItem.t.

(** X16.  [handleCalculate] with an empty name or an empty email sends one
    error toast and changes nothing.  Otherwise it sends the loading and the
    success toast and computes the result of the engine.  When the catalog
    lacks a panel, an inverter or a battery item, rendering that result
    raises and no state is committed: no lead is added.  When the three
    names can be read, the page holds the result at step 4, with the same
    appliances, and one new lead, with status New and the [totalCost] of
    that result, is in front of the leads, so that the pipeline value of the
    dashboard starts its sum with that [totalCost]. *)
Theorem handleCalculate_adds_the_quoted_lead (st : Calc.t) :
  let out := handleCalculate numberToString randomId today catalog st in
  let calc := calculateSolarSystem st.(Calc.bill) st.(Calc.fuel)
                st.(Calc.selectedAppliances) catalog in
  if String.eqb st.(Calc.name) "" || String.eqb st.(Calc.email) "" then
    snd out = Returned st /\ map Toast.type (fst out) = [Toast.error]
  else
    map Toast.type (fst out) = [Toast.loading; Toast.success]
    /\ (missing ItemType.panel catalog
        \/ missing ItemType.inverter catalog
        \/ missing ItemType.battery catalog ->
        snd out = TypeError)
    /\ (forall names, equipmentNames calc = Returned names ->
        exists st' lead,
          snd out = Returned st'
          /\ st'.(Calc.result) = Some calc
          /\ st'.(Calc.step) = 4%nat
          /\ st'.(Calc.selectedAppliances) = st.(Calc.selectedAppliances)
          /\ st'.(Calc.leads) = lead :: st.(Calc.leads)
          /\ lead.(Lead.status) = Lead.New
          /\ lead.(Lead.name) = st.(Calc.name)
          /\ lead.(Lead.email) = st.(Calc.email)
          /\ lead.(Lead.totalCost) = calc.(financials).(totalCost)
          /\ lead.(Lead.consumption)
             = NumMore.round (calc.(details).(dailyWh) / Fin 1000)
          /\ pipelineValue st'.(Calc.leads)
             = fold_left (fun acc curr => acc + curr.(Lead.totalCost))
                         st.(Calc.leads) (Fin 0 + calc.(financials).(totalCost))).
Proof.
  cbn zeta. unfold handleCalculate.
  destruct (String.eqb (Calc.name st) "" || String.eqb (Calc.email st) "").
  - split; reflexivity.
  - cbn [snd fst map Toast.type]. split; [reflexivity|]. split.
    + intros Hmiss. unfold equipmentNames.
      rewrite inverter_eq, battery_eq, panel_eq.
      destruct Hmiss as [H|[H|H]].
      * rewrite (firstOfType_missing H). reflexivity.
      * rewrite (selectInverter_missing _ H).
        destruct (firstOfType ItemType.panel catalog); reflexivity.
      * rewrite (firstOfType_missing H).
        destruct (firstOfType ItemType.panel catalog);
          destruct (selectInverter catalog _); reflexivity.
    + intros names Hnames. rewrite Hnames. cbn [bind].
      eexists. eexists. split; [reflexivity|]. repeat split.
Qed.

End HandleCalculateFacts.

(** * The session *)

Lemma currentComponent_dashboard route user :
  currentComponent route user = DashboardPage
  <-> route = "/dashboard"%string /\ user <> None.
Proof.
  unfold currentComponent.
  destruct (String.eqb route "/login") eqn:E1.
  - apply String.eqb_eq in E1. subst route. split; [discriminate|].
    intros [H _]. discriminate H.
  - destruct (String.eqb route "/dashboard") eqn:E2.
    + apply String.eqb_eq in E2. subst route. destruct user as [u|].
      * split; [|reflexivity]. intros _. split; [reflexivity|discriminate].
      * split; [discriminate|]. intros [_ H]. exfalso. apply H. reflexivity.
    + assert (Hne : route <> "/dashboard"%string).
      { intros ->. rewrite String.eqb_refl in E2. discriminate. }
      destruct (String.eqb route "/calculator");
        (split; [discriminate|]); intros [H _]; exfalso; exact (Hne H).
Qed.

Lemma no_login_keeps_logged_out actions : forall s,
  forallb (fun a => negb (isLogin a)) actions = true ->
  s.(Session.user) = None ->
  (fold_left act actions s).(Session.user) = None.
Proof.
  induction actions as [|a rest IH]; intros s Hall Hs; simpl; [exact Hs|].
  simpl in Hall. apply andb_prop in Hall. destruct Hall as [Ha Hrest].
  apply IH; [exact Hrest|]. destruct a; simpl in *; try discriminate; auto.
Qed.

(** X17.  The dashboard is rendered only on the route [/dashboard] with a user
    in the session.  After a logout no sequence of navigations and logouts
    brings it back: it takes a login.  A login followed by a navigation to
    [/dashboard] renders it. *)
Theorem dashboard_needs_a_login s actions email :
  forallb (fun a => negb (isLogin a)) actions = true ->
  let s' := fold_left act actions (logout s) in
  currentComponent s'.(Session.route) s'.(Session.user) <> DashboardPage
  /\ currentComponent "/dashboard" s'.(Session.user) = AuthPage
  /\ (let s'' := navigate "/dashboard" (login email s') in
      currentComponent s''.(Session.route) s''.(Session.user) = DashboardPage).
Proof.
  intros Hall s'.
  assert (Hout : s'.(Session.user) = None).
  { apply no_login_keeps_logged_out; [exact Hall|reflexivity]. }
  split; [|split].
  - intros H. apply currentComponent_dashboard in H. destruct H as [_ H].
    exact (H Hout).
  - rewrite Hout. reflexivity.
  - reflexivity.
Qed.

Lemma dashboard_needs_a_login_witness :
  let s := Session.mk (Some (User.mk "1" "Installer Admin" "installer@solar.ng"
                               "Suntap Energy Ltd.")) "/dashboard" in
  let actions := [Navigate "/dashboard"; Navigate "/calculator"; Logout;
                  Navigate "/dashboard"] in
  let s' := fold_left act actions (logout s) in
  forallb (fun a => negb (isLogin a)) actions = true
  /\ currentComponent s'.(Session.route) s'.(Session.user) <> DashboardPage
  /\ currentComponent "/dashboard" s'.(Session.user) = AuthPage
  /\ (let s'' := navigate "/dashboard" (login "installer@solar.ng" s') in
      currentComponent s''.(Session.route) s''.(Session.user) = DashboardPage).
Proof.
  intros s actions s'.
  assert (H : forallb (fun a => negb (isLogin a)) actions = true) by reflexivity.
  split; [exact H|].
  exact (@dashboard_needs_a_login s actions "installer@solar.ng" H).
Defined.

(** * Class names *)

Lemma concat_nonempty_strings l :
  Forall (fun s => s <> ""%string) l ->
  (String.concat " " l = ""%string <-> l = []).
Proof.
  intros Hall. split; [|intros ->; reflexivity].
  destruct l as [|s rest]; [reflexivity|]. intros H. exfalso.
  inversion Hall as [|? ? Hs _]; subst. apply Hs.
  simpl in H. destruct rest as [|s' rest'].
  - exact H.
  - destruct s; [reflexivity|discriminate H].
Qed.

Lemma truthy_classes_nonempty classes :
  Forall (fun s => s <> ""%string) (map classString (filter classTruthy classes)).
Proof.
  apply Forall_forall. intros s Hs. apply in_map_iff in Hs.
  destruct Hs as (c & <- & Hc). apply filter_In in Hc. destruct Hc as [_ Hc].
  destruct c as [x| | |]; simpl in *; try discriminate.
  intros ->. discriminate Hc.
Qed.

(** X18.  [cn] ignores [undefined], [null], [false] and empty strings wherever
    they stand, and joins the other arguments with single spaces: a truthy
    first argument is followed by a space only when a truthy argument
    follows, so that no space is left at an end. *)
Theorem cn_skips_falsy_and_joins classes :
  (forall l1 c l2, classes = l1 ++ c :: l2 -> classTruthy c = false ->
                   cn classes = cn (l1 ++ l2))
  /\ (Forall (fun c => classTruthy c = false) classes -> cn classes = ""%string)
  /\ (forall c rest, classes = c :: rest -> classTruthy c = true ->
        cn classes
        = if String.eqb (cn rest) "" then classString c
          else (classString c ++ " " ++ cn rest)%string).
Proof.
  split; [|split].
  - intros l1 c l2 -> Hc. unfold cn. rewrite !filter_app. simpl.
    rewrite Hc. reflexivity.
  - intros Hall. unfold cn.
    induction Hall as [|c l Hc _ IH]; simpl; [reflexivity|].
    rewrite Hc. exact IH.
  - intros c rest -> Hc. unfold cn at 1. simpl. rewrite Hc. simpl.
    fold (cn rest).
    assert (Hne := concat_nonempty_strings (truthy_classes_nonempty rest)).
    fold (cn rest) in Hne.
    destruct (map classString (filter classTruthy rest)) as [|s l] eqn:E.
    + unfold cn. rewrite E. reflexivity.
    + destruct (String.eqb (cn rest) "") eqn:Eq.
      * apply String.eqb_eq in Eq. apply Hne in Eq. discriminate Eq.
      * unfold cn. rewrite E. reflexivity.
Qed.

(** * The toaster *)

Lemma drawnIds_app evs evs' : drawnIds (evs ++ evs') = drawnIds evs ++ drawnIds evs'.
Proof. unfold drawnIds. apply flat_map_app. Qed.

Lemma Dispatched_in_drawnIds id detail evs :
  In (Dispatched id detail) evs -> In id (drawnIds evs).
Proof.
  intros H. unfold drawnIds. apply in_flat_map.
  exists (Dispatched id detail). split; [exact H|left; reflexivity].
Qed.

Lemma runToaster_snoc evs ev :
  runToaster (evs ++ [ev]) = toasterStep (runToaster evs) ev.
Proof. unfold runToaster. rewrite fold_left_app. reflexivity. Qed.

(** What holds after a run: a running timer belongs to a toast that is not a
    loading toast, and every loading toast sent is on screen. *)
Lemma toaster_invariant evs : forall st,
  NoDup (drawnIds evs) ->
  runToaster evs = Some st ->
  (forall id, In id st.(Toaster.timers) ->
     exists detail, In (Dispatched id detail) evs
                    /\ isLoading detail.(Toast.type) = false)
  /\ (forall id detail, In (Dispatched id detail) evs ->
        isLoading detail.(Toast.type) = true ->
        In (Shown.mk id detail) st.(Toaster.toasts)).
Proof.
  induction evs as [|ev evs IH] using rev_ind; intros st Hnd Hrun.
  - injection Hrun as <-. split; [intros id []|intros id d []].
  - rewrite runToaster_snoc in Hrun. rewrite drawnIds_app in Hnd.
    destruct (runToaster evs) as [prev|] eqn:Eprev; [|discriminate Hrun].
    assert (Hnd' := NoDup_app_remove_r _ _ Hnd).
    destruct (IH prev Hnd' eq_refl) as [Htimers Hshown].
    destruct ev as [id detail|id]; simpl in Hrun.
    + injection Hrun as <-. unfold handleToast; simpl. split.
      * intros id' Hin.
        destruct (isLoading (Toast.type detail)) eqn:El; simpl in Hin.
        -- destruct (Htimers id' Hin) as (d & Hd & Hl).
           exists d. split; [apply in_or_app; left; exact Hd|exact Hl].
        -- apply in_app_or in Hin. destruct Hin as [Hin|[<-|[]]].
           ++ destruct (Htimers id' Hin) as (d & Hd & Hl).
              exists d. split; [apply in_or_app; left; exact Hd|exact Hl].
           ++ exists detail. split; [apply in_or_app; right; left; reflexivity|exact El].
      * intros id' d Hin Hl. apply in_or_app. apply in_app_or in Hin.
        destruct Hin as [Hin|[Heq|[]]].
        -- left. exact (Hshown id' d Hin Hl).
        -- right. left. injection Heq as <- <-. reflexivity.
    + destruct (in_dec string_dec id (Toaster.timers prev)) as [Hin|]; [|discriminate Hrun].
      injection Hrun as <-. unfold timerFires; simpl. split.
      * intros id' Hin'. apply in_remove in Hin'. destruct Hin' as [Hin' _].
        destruct (Htimers id' Hin') as (d & Hd & Hl).
        exists d. split; [apply in_or_app; left; exact Hd|exact Hl].
      * intros id' d Hd Hl. apply in_app_or in Hd.
        destruct Hd as [Hd|[Hd|[]]]; [|discriminate Hd].
        apply filter_In. split; [exact (Hshown id' d Hd Hl)|]. simpl.
        apply negb_true_iff. apply String.eqb_neq. intros ->.
        destruct (Htimers id Hin) as (d' & Hd' & Hl').
        assert (d = d'); [|congruence].
        clear - Hnd' Hd Hd'. unfold drawnIds in Hnd'.
        induction evs as [|e evs IHe]; [destruct Hd|].
        simpl in Hnd'. destruct Hd as [->|Hd]; destruct Hd' as [Hd'|Hd'].
        -- injection Hd' as ->. reflexivity.
        -- simpl in Hnd'. inversion Hnd' as [|? ? Hnot _]; subst.
           exfalso. apply Hnot. exact (Dispatched_in_drawnIds _ _ _ Hd').
        -- subst e. simpl in Hnd'. inversion Hnd' as [|? ? Hnot _]; subst.
           exfalso. apply Hnot. exact (Dispatched_in_drawnIds _ _ _ Hd).
        -- apply IHe; try assumption.
           exact (NoDup_app_remove_l _ _ Hnd').
Qed.

(** X19.  A loading toast is never taken off the screen: whatever toasts are
    sent and whatever timers fire afterwards, as long as the ids drawn are
    pairwise distinct, every loading toast that was sent is still shown.  The
    loading toast of [toast.promise] therefore stays once the promise has
    resolved. *)
Theorem loading_toast_is_never_removed events st id detail :
  NoDup (drawnIds events) ->
  runToaster events = Some st ->
  In (Dispatched id detail) events ->
  detail.(Toast.type) = Toast.loading ->
  In (Shown.mk id detail) st.(Toaster.toasts).
Proof.
  intros Hnd Hrun Hin Hl.
  destruct (toaster_invariant events Hnd Hrun) as [_ Hshown].
  apply Hshown; [exact Hin|]. rewrite Hl. reflexivity.
Qed.

Lemma loading_toast_witness :
  let wait := Toast.mk Toast.loading "Calculating best system..." None in
  let done := Toast.mk Toast.success "Quote generated successfully" None in
  let events := [Dispatched "a1" wait; Dispatched "b2" done; Fired "b2"] in
  let st := Toaster.mk [Shown.mk "a1" wait] [] in
  NoDup (drawnIds events)
  /\ runToaster events = Some st
  /\ In (Dispatched "a1" wait) events
  /\ wait.(Toast.type) = Toast.loading
  /\ In (Shown.mk "a1" wait) st.(Toaster.toasts).
Proof.
  intros wait done events st.
  assert (H1 : NoDup (drawnIds events)).
  { repeat constructor; simpl; intuition discriminate. }
  assert (H2 : runToaster events = Some st) by reflexivity.
  assert (H3 : In (Dispatched "a1" wait) events) by (left; reflexivity).
  assert (H4 : wait.(Toast.type) = Toast.loading) by reflexivity.
  split; [exact H1|]. split; [exact H2|]. split; [exact H3|]. split; [exact H4|].
  exact (@loading_toast_is_never_removed events st "a1" wait H1 H2 H3 H4).
Defined.

(** * Runs of the engine in binary64

    The engine of module [Binary64] on concrete requests: first where it
    agrees with the exact model, then outside the whole-number range, where
    the statements of the specification on counts, headroom and order fail
    for the program. *)

Section Binary64Runs.

Import PrimFloat.
Local Open Scope float_scope.
Set Warnings "-inexact-float".

(** [Math.ceil] on a few values. *)
Example binary64_ceil :
  Binary64.ceil 5.04 = 6 /\ Binary64.ceil (-5.04) = -5
  /\ Binary64.ceil 1 = 1 /\ Binary64.ceil 0.2 = 1
  /\ Binary64.ceil (-0.5) = -0 /\ Binary64.ceil 0 = 0
  /\ Binary64.ceil infinity = infinity
  /\ Binary64.ceil 4503599627370495.5 = 4503599627370496.
Proof. repeat split; vm_compute; reflexivity. Qed.

(** One 100 W appliance for 6 hours a day, a bill of 50000 and a fuel cost
    of 30000 on the default catalog: the values of [one_tv_six_hours] and
    [savings_of_bill_and_fuel]. *)
Example binary64_one_tv_six_hours :
  let r := Binary64.calculateSolarSystem 50000 30000
             [Binary64.mkEntry 100 1 6] Binary64.DEFAULT_CATALOG in
  Binary64.dailyWh r = 600
  /\ Binary64.designedPeakLoad r = 70
  /\ Binary64.inverterCount r = 1
  /\ Binary64.batteryCount r = 1
  /\ Binary64.panelCount r = 1
  /\ Binary64.totalCost r = 2085000
  /\ Binary64.totalAnnualSavings r = 924000.
Proof. cbn zeta. repeat split; vm_compute; reflexivity. Qed.

(** A whole-number request on which every required size is an exact multiple
    of the spec it is divided by: 6250 W for 72 hours a day, with specs of
    5250 VA, 3 Wh and 13 W.  Both embeddings choose the inverter as adequate
    and give the same counts and the same cost. *)
Example binary64_exact_multiples :
  let r := Binary64.calculateSolarSystem 0 0
             [Binary64.mkEntry 6250 1 72]
             [ Binary64.mkItem ItemType.inverter 1 5250;
               Binary64.mkItem ItemType.battery 1 3;
               Binary64.mkItem ItemType.panel 1 13 ] in
  let q := calculateSolarSystem (Fin 0) (Fin 0)
             [SelectedAppliance.mk "ac" "AC" (Fin 6250) (Fin 72) (Fin 1) (Fin 72)]
             [ CatalogItem.mk "2" "Inverter" ItemType.inverter (Fin 1) (Fin 5250) "VA";
               CatalogItem.mk "3" "Battery" ItemType.battery (Fin 1) (Fin 3) "Wh";
               CatalogItem.mk "1" "Panel" ItemType.panel (Fin 1) (Fin 13) "W" ] in
  (Binary64.designedPeakLoad r * 1.2 = 5250
   /\ Binary64.inverterCount r = 1
   /\ Binary64.batteryCount r = 90000
   /\ Binary64.panelCount r = 10000
   /\ Binary64.totalCost r = 250001)
  /\ (requiredInverterSize
        [SelectedAppliance.mk "ac" "AC" (Fin 6250) (Fin 72) (Fin 1) (Fin 72)]
      =n= Fin 5250
      /\ q.(system).(inverterCount) = Fin 1
      /\ q.(system).(batteryCount) = Fin 90000
      /\ q.(system).(panelCount) = Fin 10000
      /\ q.(financials).(totalCost) = Fin 250001).
Proof. cbn zeta. repeat split; vm_compute; reflexivity. Qed.

(** Zero savings: [roiYears] is [+Infinity] for a bill and a fuel cost of
    [0], and [-Infinity] for a bill and a fuel cost of [-0]. *)
Example binary64_zero_savings :
  let r := Binary64.calculateSolarSystem 0 0 [] Binary64.DEFAULT_CATALOG in
  let r' := Binary64.calculateSolarSystem (-0) (-0) [] Binary64.DEFAULT_CATALOG in
  (Binary64.totalAnnualSavings r =? 0) = true
  /\ Binary64.roiYears r = infinity
  /\ (Binary64.totalAnnualSavings r' =? 0) = true
  /\ Binary64.roiYears r' = neg_infinity.
Proof. cbn zeta. repeat split; vm_compute; reflexivity. Qed.

(** C4, as the specification states it, fails for the program in four ways.
    An installation item priced 0 is charged 150000, not its price.  An
    entry of positive wattage, count and hours, here 2^-1074 W, gives
    quotients that round to 0 and no unit of any kind.  An entry of 2^1023 W
    counted twice gives a peak load of [Infinity] and counts of [Infinity],
    which are no integers.  And with the whole-number prices 2^53 for the
    inverter and 1 for the installation, [totalCost] is 2^53, the sum
    without the installation price, where the exact sum is 2^53 + 1. *)
Lemma counts_and_cost_fail_outside_whole_range :
  (let catalog :=
     [ Binary64.mkItem ItemType.panel 85000 550;
       Binary64.mkItem ItemType.inverter 650000 5000;
       Binary64.mkItem ItemType.battery 1200000 5000;
       Binary64.mkItem ItemType.installation 0 1 ] in
   let r := Binary64.calculateSolarSystem 0 0 [] catalog in
   Binary64.inverterCount r = 0
   /\ Binary64.batteryCount r = 0
   /\ Binary64.panelCount r = 0
   /\ Binary64.totalCost r = 150000)
  /\ (let app := Binary64.mkEntry Binary64.MIN_VALUE 1 1 in
      let r := Binary64.calculateSolarSystem 0 0 [app] Binary64.DEFAULT_CATALOG in
      (0 <? Binary64.watts app) = true
      /\ (0 <? Binary64.dailyWh r) = true
      /\ Binary64.inverterCount r = 0
      /\ Binary64.batteryCount r = 0
      /\ Binary64.panelCount r = 0)
  /\ (let app := Binary64.mkEntry Binary64.two1023 2 1 in
      let r := Binary64.calculateSolarSystem 0 0 [app] Binary64.DEFAULT_CATALOG in
      is_finite (Binary64.watts app) = true
      /\ Binary64.inverterCount r = infinity
      /\ Binary64.batteryCount r = infinity
      /\ Binary64.panelCount r = infinity
      /\ Binary64.totalCost r = infinity)
  /\ (let catalog :=
        [ Binary64.mkItem ItemType.inverter 9007199254740992 5000;
          Binary64.mkItem ItemType.installation 1 1 ] in
      let r := Binary64.calculateSolarSystem 0 0 [Binary64.mkEntry 100 1 6] catalog in
      Binary64.inverterCount r = 1
      /\ Binary64.batteryCount r = 1
      /\ Binary64.panelCount r = 1
      /\ Binary64.battery r = None
      /\ Binary64.panel r = None
      /\ Binary64.totalCost r = 9007199254740992
      /\ Binary64.totalCost r - Binary64.inverterCount r * 9007199254740992 = 0
      /\ (calculateSolarSystem (Fin 0) (Fin 0)
            [SelectedAppliance.mk "tv" "LED TV" (Fin 100) (Fin 6) (Fin 1) (Fin 6)]
            [CatalogItem.mk "2" "Inverter" ItemType.inverter
               (Fin 9007199254740992) (Fin 5000) "VA";
             CatalogItem.mk "4" "Install Kit" ItemType.installation
               (Fin 1) (Fin 1) "Lot"]).(financials).(totalCost)
         = Fin 9007199254740993).
Proof.
  cbn zeta. repeat split; vm_compute; reflexivity.
Qed.

(** C5, as the specification states it, fails for the program: one appliance
    of 2^-1074 W on the default catalog requires 2^-1074 VA, the 5000 VA
    inverter is adequate and is chosen, the quotient rounds to 0, and zero
    inverters of 5000 VA do not cover what is required. *)
Lemma inverter_headroom_fails_on_underflow :
  let app := Binary64.mkEntry Binary64.MIN_VALUE 1 1 in
  let r := Binary64.calculateSolarSystem 0 0 [app] Binary64.DEFAULT_CATALOG in
  let requiredInverterSize := Binary64.designedPeakLoad r * 1.2 in
  (0 <? requiredInverterSize) = true
  /\ Binary64.inverter r = Some (Binary64.mkItem ItemType.inverter 650000 5000)
  /\ (requiredInverterSize <=? 5000) = true
  /\ Binary64.inverterCount r = 0
  /\ (requiredInverterSize <=? Binary64.inverterCount r * 5000) = false.
Proof.
  cbn zeta. repeat split; vm_compute; reflexivity.
Qed.

(** C7, as the specification states it, fails for the program: three entries
    of 1 W used 0.1, 0.2 and 0.3 hours a day give a [dailyWh] of
    0.6000000000000001 in this order and of 0.6 in the reverse order. *)
Lemma dailyWh_depends_on_order_in_binary64 :
  let a := Binary64.mkEntry 1 1 0.1 in
  let b := Binary64.mkEntry 1 1 0.2 in
  let c := Binary64.mkEntry 1 1 0.3 in
  let r := Binary64.calculateSolarSystem 0 0 [a; b; c] Binary64.DEFAULT_CATALOG in
  let r' := Binary64.calculateSolarSystem 0 0 [c; b; a] Binary64.DEFAULT_CATALOG in
  Permutation [a; b; c] [c; b; a]
  /\ Binary64.dailyWh r = 0.6000000000000001
  /\ Binary64.dailyWh r' = 0.6
  /\ (Binary64.dailyWh r =? Binary64.dailyWh r') = false.
Proof.
  cbn zeta. split.
  - apply Permutation_sym, (Permutation_cons_app [_; _] []), perm_swap.
  - repeat split; vm_compute; reflexivity.
Qed.

End Binary64Runs.
